(** * mcp_context_server: the markdown section index and its two queries

    A shallow embedding of
    [src/bundles/mcp-docs-server/server/mcp_context_server.py]:
    the class [ContextParser] (construction from a file, [get_overview],
    [search]) together with the Python built-ins it relies on.

    Modelling conventions.
    - A Python [str] is a [list ascii]; a character stands for the code
      point of the same number, so the model covers texts whose code points
      are below 256.  On that range [str.lower] and [str.isspace] act
      character by character, which is what [lower_char] and [isspace]
      transcribe.
    - String literals are written in [str_scope] with the two Python
      escapes the source uses: a backslash followed by [n] is the line feed
      (code 10) and a doubled backslash is one backslash.
    - A [dict] is an association list in insertion order with unique keys;
      [dict_set] is the assignment [d[k] = v].
    - [Path.exists] and [Path.read_text] are calls into the environment and
      may raise; they are fields of a [FileSystem] returning a [result].
    - [print(..., file=sys.stderr)] appends a line to the list of
      diagnostics that construction returns next to the object. *)

From Stdlib Require Import Ascii List Bool Arith Lia DecimalString.
Import ListNotations.

(* ================================================================= *)
(** ** Python strings *)

Definition str := list ascii.

Inductive str_lit := LNil | LCons (c : ascii) (s : str_lit).

Fixpoint str_parse (bs : list Byte.byte) : str_lit :=
  match bs with
  | [] => LNil
  | Byte.x5c :: Byte.x6e :: bs' => LCons (ascii_of_byte Byte.x0a) (str_parse bs')
  | Byte.x5c :: Byte.x5c :: bs' => LCons (ascii_of_byte Byte.x5c) (str_parse bs')
  | b :: bs' => LCons (ascii_of_byte b) (str_parse bs')
  end.

Fixpoint str_print_chars (s : str_lit) : list Byte.byte :=
  match s with
  | LNil => []
  | LCons c s' =>
      match byte_of_ascii c with
      | Byte.x0a => Byte.x5c :: Byte.x6e :: str_print_chars s'
      | Byte.x5c => Byte.x5c :: Byte.x5c :: str_print_chars s'
      | b => b :: str_print_chars s'
      end
  end.

Definition str_print (s : str_lit) : option (list Byte.byte) :=
  match s with
  | LNil => None
  | _ => Some (str_print_chars s)
  end.

Declare Scope str_scope.
Delimit Scope str_scope with str.
Bind Scope str_scope with str.
#[warning="-via-type-remapping,-via-type-mismatch"]
String Notation str str_parse str_print
  (via str_lit mapping [[nil] => LNil, [cons] => LCons]) : str_scope.
Open Scope str_scope.
Open Scope list_scope.

(** The line feed, the only line separator [str.split('\n')] and the
    multi-line anchor of [re] know. *)
Definition LF : ascii := ascii_of_nat 10.
Definition HASH : ascii := ascii_of_nat 35.
Definition SPACE : ascii := ascii_of_nat 32.

Definition between (lo hi n : nat) : bool := (lo <=? n) && (n <=? hi).

(** [c.isspace()] for a code point below 256: tab, line feed, vertical
    tab, form feed, carriage return, the four separators 28 to 31, the
    space, next line (133) and the no-break space (160). *)
Definition isspace (c : ascii) : bool :=
  let n := nat_of_ascii c in
  between 9 13 n || between 28 32 n || (n =? 133) || (n =? 160).

(** [c.lower()] for a code point below 256: the letters A to Z and the
    accented capitals 192 to 222, the multiplication sign 215 apart, move
    up by 32. *)
Definition lower_char (c : ascii) : ascii :=
  let n := nat_of_ascii c in
  if between 65 90 n || (between 192 222 n && negb (n =? 215))
  then ascii_of_nat (n + 32)
  else c.

(** [s.lower()] *)
Definition lower (s : str) : str := map lower_char s.

Fixpoint dropwhile_space (s : str) : str :=
  match s with
  | [] => []
  | c :: s' => if isspace c then dropwhile_space s' else s
  end.

(** [s.lstrip()], [s.rstrip()], [s.strip()] *)
Definition lstrip (s : str) : str := dropwhile_space s.
Definition rstrip (s : str) : str := rev (dropwhile_space (rev s)).
Definition strip (s : str) : str := rstrip (lstrip s).

Fixpoint str_eqb (a b : str) : bool :=
  match a, b with
  | [], [] => true
  | x :: a', y :: b' => Ascii.eqb x y && str_eqb a' b'
  | _, _ => false
  end.

(** [s.startswith(p)] *)
Fixpoint startswith (p s : str) : bool :=
  match p, s with
  | [], _ => true
  | _ :: _, [] => false
  | x :: p', y :: s' => Ascii.eqb x y && startswith p' s'
  end.

(** [needle in hay] on strings: [needle] occurs at some offset of [hay]. *)
Fixpoint str_in (needle hay : str) : bool :=
  startswith needle hay ||
  match hay with
  | [] => false
  | _ :: hay' => str_in needle hay'
  end.

(** [s.split('\n')] as the first line and the lines after it; the list
    Python returns is never empty. *)
Fixpoint split_lines_aux (s : str) : str * list str :=
  match s with
  | [] => ([], [])
  | c :: s' =>
      let (l, ls) := split_lines_aux s' in
      if Ascii.eqb c LF then ([], l :: ls) else (c :: l, ls)
  end.

Definition split_lines (s : str) : list str :=
  let (l, ls) := split_lines_aux s in l :: ls.

(** [s.split('\n', 1)]: at most one cut, at the first line feed. *)
Fixpoint split_first_line (s : str) : list str :=
  match s with
  | [] => [[]]
  | c :: s' =>
      if Ascii.eqb c LF then [[]; s']
      else match split_first_line s' with
           | l :: rest => (c :: l) :: rest
           | [] => [[c]]
           end
  end.

(** [sep.join(parts)] *)
Fixpoint join (sep : str) (parts : list str) : str :=
  match parts with
  | [] => []
  | [p] => p
  | p :: ps => p ++ sep ++ join sep ps
  end.

Fixpoint chars_of_string (s : String.string) : str :=
  match s with
  | String.EmptyString => []
  | String.String c s' => c :: chars_of_string s'
  end.

(** [str(n)] for a non-negative [int]: its decimal digits. *)
Definition str_of_nat (n : nat) : str :=
  chars_of_string (NilEmpty.string_of_uint (Nat.to_uint n)).

(** [enumerate(xs, start)] *)
Definition enumerate {A : Type} (start : nat) (xs : list A) : list (nat * A) :=
  combine (seq start (length xs)) xs.

(* ================================================================= *)
(** ** [re.split(r'^# ', content, flags=re.MULTILINE)]

    The pattern matches the two characters [# ] where the anchor holds:
    at offset 0 and right after a line feed.  [bol] tells whether the
    anchor holds at the head of [s].  The result is the piece before the
    first match and the pieces after each match; the matched characters
    belong to no piece.  After a match the scan resumes behind the space,
    where the anchor does not hold. *)

Fixpoint re_split_aux (bol : bool) (s : str) : str * list str :=
  match s with
  | [] => ([], [])
  | c :: s' =>
      let keep :=
        let (p, ps) := re_split_aux (Ascii.eqb c LF) s' in (c :: p, ps) in
      if bol && Ascii.eqb c HASH then
        match s' with
        | c' :: s'' =>
            if Ascii.eqb c' SPACE
            then let (p, ps) := re_split_aux false s'' in ([], p :: ps)
            else keep
        | [] => keep
        end
      else keep
  end.

Definition re_split_headers (content : str) : list str :=
  let (p, ps) := re_split_aux true content in p :: ps.

(* ================================================================= *)
(** ** Insertion-ordered dictionaries *)

Definition dict := list (str * str).

(** [d[k] = v]: an existing key keeps its place and takes the new value,
    a new key goes to the end. *)
Fixpoint dict_set (d : dict) (k v : str) : dict :=
  match d with
  | [] => [(k, v)]
  | (k', v') :: d' =>
      if str_eqb k' k then (k', v) :: d' else (k', v') :: dict_set d' k v
  end.

(** [d.get(k)] *)
Fixpoint dict_get (d : dict) (k : str) : option str :=
  match d with
  | [] => None
  | (k', v') :: d' => if str_eqb k' k then Some v' else dict_get d' k
  end.

(** [d.keys()], in iteration order. *)
Definition keys (d : dict) : list str := map fst d.

(** Offset of [k] in a list of keys. *)
Fixpoint index_of (k : str) (ks : list str) : option nat :=
  match ks with
  | [] => None
  | k' :: ks' =>
      if str_eqb k' k then Some 0 else option_map S (index_of k ks')
  end.

(* ================================================================= *)
(** ** The environment: file system and diagnostics *)

(** Outcome of a call that may raise; [Raise msg] carries [str(e)]. *)
Inductive result (A : Type) : Type :=
| Ok (a : A)
| Raise (msg : str).
Arguments Ok {A} a.
Arguments Raise {A} msg.

Record FileSystem := {
  path_exists : str -> result bool;   (* [Path.exists] *)
  read_text : str -> result str       (* [Path.read_text(encoding='utf-8')] *)
}.

(** Lines written to [sys.stderr], oldest first. *)
Definition stderr := list str.

(* ================================================================= *)
(** ** class ContextParser *)

Record ContextParser := {
  file_path : str;
  sections : dict
}.

(** Line 62-63: the text before the first header. *)
Definition add_introduction (d : dict) (first : str) : dict :=
  match strip first with
  | [] => d
  | _ :: _ => dict_set d "Introduction" (strip first)
  end.

(** Lines 67-71: the body of the loop over [sections[1:]]. *)
Definition process_section (d : dict) (section : str) : dict :=
  let lines := split_first_line section in
  match lines with
  | [] => d                                    (* [len(lines) >= 1] fails *)
  | l0 :: rest =>
      let title := strip l0 in
      let content_part := match rest with l1 :: _ => l1 | [] => "" end in
      dict_set d title (strip content_part)
  end.

(** Lines 58-74: from the text read to the section map, starting from the
    map [d] the object holds. *)
Definition parse_content (d : dict) (content : str) : dict :=
  let pieces := re_split_headers content in
  if 1 <? length pieces then
    let d1 := add_introduction d (hd "" pieces) in
    fold_left process_section (tl pieces) d1
  else
    dict_set d "Documentation" (strip content).

Definition not_found_message : str :=
  "Documentation file not found. Please create context.md in the project root.".

(** Lines 78-80: the handler of [except Exception as e]. *)
Definition load_failed (self : ContextParser) (e : str) : ContextParser * stderr :=
  ({| file_path := file_path self;
      sections := [("Error", "Failed to load documentation: " ++ e)] |},
   ["ERROR loading context file: " ++ e]).

Definition _load_and_parse (fs : FileSystem) (self : ContextParser)
  : ContextParser * stderr :=
  match path_exists fs (file_path self) with
  | Raise e => load_failed self e
  | Ok false =>
      ({| file_path := file_path self;
          sections := [("Error", not_found_message)] |},
       ["WARNING: Context file not found at " ++ file_path self])
  | Ok true =>
      match read_text fs (file_path self) with
      | Raise e => load_failed self e
      | Ok content =>
          let d := parse_content (sections self) content in
          ({| file_path := file_path self; sections := d |},
           ["Loaded context file: " ++ file_path self ++ " ("
              ++ str_of_nat (length content) ++ " chars)";
            "Parsed " ++ str_of_nat (length d) ++ " sections"])
      end
  end.

(** [ContextParser(file_path)], that is [__init__]. *)
Definition new_ContextParser (fs : FileSystem) (path : str)
  : ContextParser * stderr :=
  _load_and_parse fs {| file_path := path; sections := [] |}.

Definition get_overview (self : ContextParser) : str :=
  match sections self with
  | [] => "No documentation sections available."
  | _ :: _ =>
      fold_left
        (fun overview '(i, title) =>
           overview ++ str_of_nat i ++ ". " ++ title ++ "\n")
        (enumerate 1 (keys (sections self)))
        "Available documentation sections:\n\n"
  end.

(** A search result: section title and snippet. *)
Definition hit := (str * str)%type.

(** Lines 102-104: the loop over titles. *)
Definition search_titles (query_lower : str) (d : dict) (results : list hit)
  : list hit :=
  fold_left
    (fun results '(title, content) =>
       if str_in query_lower (lower title)
       then results ++ [(title, "Found in section title: " ++ title)]
       else results)
    d results.

(** Lines 113-115: the lines of a body that contain the query, trimmed. *)
Definition matching_lines_of (query_lower : str) (lines : list str) : list str :=
  fold_left
    (fun matching_lines line =>
       if str_in query_lower (lower line)
       then matching_lines ++ [strip line]
       else matching_lines)
    lines [].

(** Lines 107-119: the loop over bodies. *)
Definition search_bodies (query_lower : str) (d : dict) (results : list hit)
  : list hit :=
  fold_left
    (fun results '(title, content) =>
       if str_in query_lower (lower content) then
         let lines := split_lines content in
         let matching_lines := matching_lines_of query_lower lines in
         match matching_lines with
         | [] => results
         | _ :: _ =>
             let context := join "\n" (firstn 3 matching_lines) in
             results ++ [(title, "From '" ++ title ++ "' section:\n" ++ context)]
         end
       else results)
    d results.

(** Lines 98-119: the list [results] when the loops are done. *)
Definition search_results (self : ContextParser) (query : str) : list hit :=
  let query_lower := lower query in
  search_bodies query_lower (sections self)
    (search_titles query_lower (sections self) []).

(** Lines 125-132. *)
Definition format_results (query : str) (results : list hit) : str :=
  let response :=
    fold_left
      (fun response '(i, (title, context)) =>
         response ++ str_of_nat i ++ ". " ++ context ++ "\n\n")
      (enumerate 1 (firstn 5 results))
      ("Search results for '" ++ query ++ "':\n\n") in
  if 5 <? length results
  then response ++ "... and " ++ str_of_nat (length results - 5)
         ++ " more results found.\n"
  else response.

Definition search (self : ContextParser) (query : str) : str :=
  match sections self with
  | [] => "No documentation available to search."
  | _ :: _ =>
      let results := search_results self query in
      match results with
      | [] => "No results found for '" ++ query ++ "' in the documentation."
      | _ :: _ => format_results query results
      end
  end.

(* ================================================================= *)
(** ** Vocabulary of the properties *)

(** [b] occurs in [s] as a contiguous run of characters. *)
Definition substring (b s : str) : Prop :=
  exists pre post, s = pre ++ b ++ post.

(** [s] has no white space at either end. *)
Definition trimmed (s : str) : Prop := strip s = s.

(** The anchor of the header pattern holds behind [pre]: nothing has been
    read yet, or the last character read is a line feed. *)
Definition line_start (pre : str) : Prop :=
  pre = [] \/ exists pre', pre = pre' ++ [LF].

(** [content] has a top-level header: [# ] at the start of a line. *)
Definition has_header (content : str) : Prop :=
  exists pre post, content = pre ++ "# " ++ post /\ line_start pre.

(** [pre] is the text before the first top-level header of [content]. *)
Definition preamble_of (content pre : str) : Prop :=
  (exists post, content = pre ++ "# " ++ post) /\
  line_start pre /\ ~ has_header pre.

(** The title and the body a header chunk contributes. *)
Definition chunk_title (section : str) : str :=
  strip (hd "" (split_first_line section)).
Definition chunk_body (section : str) : str :=
  strip (nth 1 (split_first_line section) "").

(** A file system holding one file. *)
Definition single_file (path content : str) : FileSystem :=
  {| path_exists := fun p => Ok (str_eqb p path);
     read_text := fun p =>
       if str_eqb p path then Ok content
       else Raise ("[Errno 2] No such file or directory: '" ++ p ++ "'") |}.

(** A file system holding nothing. *)
Definition no_files : FileSystem :=
  {| path_exists := fun _ => Ok false;
     read_text := fun p =>
       Raise ("[Errno 2] No such file or directory: '" ++ p ++ "'") |}.

(** What the two file-system calls of lines 49-54 amount to. *)
Inductive LoadStatus :=
| NotFound
| ReadError (e : str)
| Loaded (content : str).

Definition load (fs : FileSystem) (path : str) : LoadStatus :=
  match path_exists fs path with
  | Raise e => ReadError e
  | Ok false => NotFound
  | Ok true =>
      match read_text fs path with
      | Raise e => ReadError e
      | Ok content => Loaded content
      end
  end.

(** The anchor holds behind [pre] when it holds at the start ([bol]) or a
    line feed was just read. *)
Definition anchored (bol : bool) (pre : str) : Prop :=
  (pre = [] /\ bol = true) \/ exists pre', pre = pre' ++ [LF].

Definition header_at (bol : bool) (s : str) : Prop :=
  exists pre post, s = pre ++ "# " ++ post /\ anchored bol pre.

Definition pieces_of (bol : bool) (s : str) : list str :=
  let (p, ps) := re_split_aux bol s in p :: ps.

(** The pattern matches at the head of [c :: s]. *)
Definition match_here (bol : bool) (c : ascii) (s : str) : bool :=
  bol && Ascii.eqb c HASH &&
  match s with c' :: _ => Ascii.eqb c' SPACE | [] => false end.

(** The two kinds of search result, per section. *)
Definition title_matches (query : str) (s : str * str) : bool :=
  str_in (lower query) (lower (fst s)).

Definition title_hit (s : str * str) : hit :=
  (fst s, "Found in section title: " ++ fst s).

Definition line_matches (query : str) (line : str) : bool :=
  str_in (lower query) (lower line).

Definition body_matches (query : str) (s : str * str) : bool :=
  existsb (line_matches query) (split_lines (snd s)).

Definition body_hit (query : str) (s : str * str) : hit :=
  (fst s,
   "From '" ++ fst s ++ "' section:\n"
     ++ join "\n"
          (firstn 3 (map strip (filter (line_matches query) (split_lines (snd s)))))).

(** The numbered line of the result at offset [i]. *)
Definition numbered_entry (results : list hit) (i : nat) : str :=
  str_of_nat (i + 1) ++ ". " ++ snd (nth i results ("", "")) ++ "\n\n".

Definition results_header (query : str) : str :=
  "Search results for '" ++ query ++ "':\n\n".

(** The trailing line of a response with [n] results. *)
Definition omitted_notice (n : nat) : str :=
  if 5 <? n
  then "... and " ++ str_of_nat (n - 5) ++ " more results found.\n"
  else "".

(** What follows the first line of a response: the numbered entries of the
    first five results at most, then the notice. *)
Definition results_listing (results : list hit) : str :=
  concat (map (numbered_entry results) (seq 0 (Nat.min 5 (length results))))
    ++ omitted_notice (length results).

(** The line of the overview for the title at offset [i]. *)
Definition overview_entry (titles : list str) (i : nat) : str :=
  str_of_nat (i + 1) ++ ". " ++ nth i titles "" ++ "\n".

(** The object built from a file [context.md] with the given text. *)
Definition document (content : str) : ContextParser :=
  fst (new_ContextParser (single_file "context.md" content) "context.md").

(** Eight sections with the two-line body [a], [b]. *)
Definition eight_sections : str :=
  "# S1\na\nb\n# S2\na\nb\n# S3\na\nb\n# S4\na\nb\n# S5\na\nb\n# S6\na\nb\n# S7\na\nb\n# S8\na\nb\n".

(* ================================================================= *)
(** ** The module around the class *)

(** Lines 135-137: the parser the module builds when it is imported, for
    the location [CONTEXT_FILE] it was configured with. *)
Definition init_context_parser (fs : FileSystem) (CONTEXT_FILE : str)
  : ContextParser * stderr :=
  let (context_parser, err) := new_ContextParser fs CONTEXT_FILE in
  (context_parser, "Initializing context parser..." :: err).

(** Lines 140-152: the tool [search_context]; it has no suspension point,
    so a call is a diagnostic line and the answer of [search]. *)
Definition search_context (context_parser : ContextParser) (query : str)
  : str * stderr :=
  (search context_parser query, ["Searching for: " ++ query]).

(** Lines 155-164: the tool [get_context_overview]. *)
Definition get_context_overview (context_parser : ContextParser)
  : str * stderr :=
  (get_overview context_parser, ["Getting context overview"]).

(* ================================================================= *)
(** ** More vocabulary *)

(** The keys [ks] in the order of their first occurrence, those already
    [seen] left out. *)
Fixpoint first_occurrences (seen ks : list str) : list str :=
  match ks with
  | [] => []
  | k :: ks' =>
      if existsb (str_eqb k) seen then first_occurrences seen ks'
      else k :: first_occurrences (k :: seen) ks'
  end.

(** The assignments of lines 63, 71 and 74 for a text, in the order the
    code makes them. *)
Definition section_entries (content : str) : list (str * str) :=
  let pieces := re_split_headers content in
  if 1 <? length pieces then
    match strip (hd "" pieces) with
    | [] => []
    | _ :: _ => [("Introduction", strip (hd "" pieces))]
    end ++ map (fun c => (chunk_title c, chunk_body c)) (tl pieces)
  else [("Documentation", strip content)].

(** One assignment [d[k] = v], the pair [(k, v)] given as one value. *)
Definition assign (d : dict) (e : str * str) : dict :=
  dict_set d (fst e) (snd e).

(** Number of line feeds of a string. *)
Definition count_LF (s : str) : nat := count_occ ascii_dec s LF.

(** The results of the body pass alone. *)
Definition body_results (self : ContextParser) (query : str) : list hit :=
  search_bodies (lower query) (sections self) [].

(* ================================================================= *)
(** ** Sample runs *)

Example parse_setup_usage :
  sections (fst (new_ContextParser
    (single_file "context.md"
       "# Setup\nRun install.\n# Usage\nRun build then run test.")
    "context.md"))
  = [("Setup", "Run install."); ("Usage", "Run build then run test.")].
Proof. vm_compute. reflexivity. Qed.

Example overview_setup_usage :
  get_overview {| file_path := "context.md";
                  sections := [("Setup", "Run install.");
                               ("Usage", "Run build then run test.")] |}
  = "Available documentation sections:\n\n1. Setup\n2. Usage\n".
Proof. vm_compute. reflexivity. Qed.

Example search_setup_usage :
  search {| file_path := "context.md";
            sections := [("Setup", "Run install.");
                         ("Usage", "Run build then run test.")] |} "run"
  = "Search results for 'run':\n\n1. From 'Setup' section:\nRun install.\n\n2. From 'Usage' section:\nRun build then run test.\n\n".
Proof. vm_compute. reflexivity. Qed.

Example split_keeps_deeper_headers :
  re_split_headers "x# A\nfoo\n## B\n # C\n#\n# "
  = ["x# A\nfoo\n## B\n # C\n#\n"; ""].
Proof. vm_compute. reflexivity. Qed.

(* ================================================================= *)
(** ** Strings: equality, containment, case *)

Lemma str_eqb_eq (a b : str) : str_eqb a b = true <-> a = b.
Proof.
  revert b; induction a as [|x a IH]; intros [|y b]; simpl;
    try (split; [discriminate | discriminate]); try tauto.
  rewrite andb_true_iff, Ascii.eqb_eq, IH.
  split; [intros [-> ->]; reflexivity | intros H; inversion H; auto].
Qed.

Lemma str_eqb_refl (a : str) : str_eqb a a = true.
Proof. apply str_eqb_eq; reflexivity. Qed.

Lemma str_eqb_neq (a b : str) : str_eqb a b = false <-> a <> b.
Proof.
  rewrite <- str_eqb_eq. destruct (str_eqb a b); split; congruence.
Qed.

Lemma startswith_spec (p s : str) :
  startswith p s = true <-> exists post, s = p ++ post.
Proof.
  revert s; induction p as [|x p IH]; intros s; simpl.
  - split; [intros _; exists s; reflexivity | reflexivity].
  - destruct s as [|y s].
    + split; [discriminate | intros [post H]; discriminate].
    + rewrite andb_true_iff, Ascii.eqb_eq, IH. split.
      * intros [-> [post ->]]. exists post; reflexivity.
      * intros [post H]. inversion H; subst. split; [reflexivity | eauto].
Qed.

Lemma substring_refl (s : str) : substring s s.
Proof. exists [], []. rewrite app_nil_r. reflexivity. Qed.

Lemma substring_nil (s : str) : substring [] s.
Proof. exists [], s. reflexivity. Qed.

Lemma substring_trans (a b c : str) :
  substring a b -> substring b c -> substring a c.
Proof.
  intros (p1 & q1 & ->) (p2 & q2 & ->).
  exists (p2 ++ p1), (q1 ++ q2). now rewrite !app_assoc.
Qed.

Lemma substring_app_r (a pre s : str) : substring a s -> substring a (pre ++ s).
Proof.
  intros (p & q & ->). exists (pre ++ p), q. now rewrite !app_assoc.
Qed.

Lemma substring_app_l (a s post : str) : substring a s -> substring a (s ++ post).
Proof.
  intros (p & q & ->). exists p, (q ++ post). now rewrite <- !app_assoc.
Qed.

Lemma substring_cons (a : str) (c : ascii) (s : str) :
  substring a s -> substring a (c :: s).
Proof. apply (substring_app_r a [c] s). Qed.

(** [needle in hay] decides containment. *)
Lemma str_in_spec (needle hay : str) :
  str_in needle hay = true <-> substring needle hay.
Proof.
  induction hay as [|c hay IH]; simpl.
  - rewrite orb_false_r, startswith_spec. split.
    + intros [post H]. exists [], post. exact H.
    + intros (pre & post & H). destruct pre; simpl in H.
      * exists post; exact H.
      * discriminate.
  - rewrite orb_true_iff, startswith_spec, IH. split.
    + intros [[post H] | H].
      * exists [], post. exact H.
      * apply substring_cons; exact H.
    + intros (pre & post & H). destruct pre as [|x pre]; simpl in H.
      * left. exists post; exact H.
      * right. inversion H. exists pre, post. reflexivity.
Qed.

Lemma str_in_nil (hay : str) : str_in [] hay = true.
Proof. apply str_in_spec, substring_nil. Qed.

Lemma lower_char_idem (c : ascii) : lower_char (lower_char c) = lower_char c.
Proof. destruct c as [[] [] [] [] [] [] [] []]; reflexivity. Qed.

Lemma lower_idem (s : str) : lower (lower s) = lower s.
Proof.
  unfold lower. rewrite map_map. apply map_ext. apply lower_char_idem.
Qed.

Lemma lower_app (a b : str) : lower (a ++ b) = lower a ++ lower b.
Proof. apply map_app. Qed.

Lemma substring_lower (a s : str) :
  substring a s -> substring (lower a) (lower s).
Proof.
  intros (p & q & ->). exists (lower p), (lower q). now rewrite !lower_app.
Qed.

(* ================================================================= *)
(** ** Strings: trimming *)

Lemma dropwhile_space_suffix (s : str) :
  exists pre, s = pre ++ dropwhile_space s.
Proof.
  induction s as [|c s [pre IH]]; simpl.
  - exists []. reflexivity.
  - destruct (isspace c).
    + exists (c :: pre). simpl. now rewrite <- IH.
    + exists []. reflexivity.
Qed.

Lemma dropwhile_space_head (s r : str) (c : ascii) :
  dropwhile_space s = c :: r -> isspace c = false.
Proof.
  induction s as [|x s IH]; simpl; [discriminate|].
  destruct (isspace x) eqn:E; [exact IH|].
  intros H; inversion H; subst; exact E.
Qed.

Lemma dropwhile_space_fixed (s : str) (c : ascii) :
  isspace c = false -> dropwhile_space (c :: s) = c :: s.
Proof. intros H; simpl; now rewrite H. Qed.

Lemma dropwhile_space_idem (s : str) :
  dropwhile_space (dropwhile_space s) = dropwhile_space s.
Proof.
  destruct (dropwhile_space s) as [|c r] eqn:E; [reflexivity|].
  apply dropwhile_space_fixed. eapply dropwhile_space_head; eassumption.
Qed.

Lemma dropwhile_space_app (s t : str) (c : ascii) :
  isspace c = false ->
  dropwhile_space (s ++ c :: t) = dropwhile_space s ++ c :: t.
Proof.
  intros H. induction s as [|x s IH]; simpl.
  - now rewrite H.
  - destruct (isspace x); [exact IH | reflexivity].
Qed.

Lemma rstrip_cons (c : ascii) (s : str) :
  isspace c = false -> rstrip (c :: s) = c :: rstrip s.
Proof.
  intros H. unfold rstrip. simpl.
  rewrite (dropwhile_space_app (rev s) [] c H), rev_app_distr. reflexivity.
Qed.

Lemma lstrip_substring (s : str) : substring (lstrip s) s.
Proof.
  destruct (dropwhile_space_suffix s) as [pre H].
  exists pre, []. rewrite app_nil_r. exact H.
Qed.

Lemma rstrip_substring (s : str) : substring (rstrip s) s.
Proof.
  unfold rstrip. destruct (dropwhile_space_suffix (rev s)) as [pre H].
  exists [], (rev pre). simpl.
  rewrite <- rev_app_distr, <- H, rev_involutive. reflexivity.
Qed.

Lemma strip_substring (s : str) : substring (strip s) s.
Proof.
  unfold strip. eapply substring_trans;
    [apply rstrip_substring | apply lstrip_substring].
Qed.

Lemma rstrip_idem (s : str) : rstrip (rstrip s) = rstrip s.
Proof.
  unfold rstrip. now rewrite rev_involutive, dropwhile_space_idem.
Qed.

Lemma lstrip_strip (s : str) : lstrip (strip s) = strip s.
Proof.
  unfold strip, lstrip.
  destruct (dropwhile_space s) as [|c r] eqn:E; [reflexivity|].
  pose proof (dropwhile_space_head _ _ _ E) as Hc.
  rewrite (rstrip_cons c r Hc). now apply dropwhile_space_fixed.
Qed.

(** The outcome of [strip] has nothing left to trim. *)
Lemma strip_trimmed (s : str) : trimmed (strip s).
Proof.
  unfold trimmed. unfold strip at 1. rewrite lstrip_strip.
  unfold strip. apply rstrip_idem.
Qed.

(* ================================================================= *)
(** ** Strings: cutting into lines *)

Lemma split_first_line_cases (s : str) :
  (split_first_line s = [s] /\ ~ In LF s) \/
  (exists l rest, split_first_line s = [l; rest] /\ s = l ++ LF :: rest /\ ~ In LF l).
Proof.
  induction s as [|c s IH]; simpl.
  - left. split; [reflexivity | tauto].
  - destruct (Ascii.eqb c LF) eqn:E.
    + apply Ascii.eqb_eq in E; subst c. right.
      exists [], s. repeat split; auto.
    + apply Ascii.eqb_neq in E.
      destruct IH as [[-> Hn] | (l & rest & -> & -> & Hn)].
      * left. split; [reflexivity|]. intros [H | H]; [congruence | tauto].
      * right. exists (c :: l), rest. repeat split.
        intros [H | H]; [congruence | tauto].
Qed.

Lemma split_first_line_nonempty (s : str) : split_first_line s <> [].
Proof.
  destruct (split_first_line_cases s) as [[-> _] | (l & rest & -> & _)];
    discriminate.
Qed.

Lemma split_first_line_substring (s l : str) :
  In l (split_first_line s) -> substring l s.
Proof.
  destruct (split_first_line_cases s) as [[-> _] | (h & rest & -> & -> & _)];
    simpl.
  - intros [<- | []]. apply substring_refl.
  - intros [<- | [<- | []]].
    + exists [], (LF :: rest). reflexivity.
    + exists (h ++ [LF]), []. now rewrite app_nil_r, <- app_assoc.
Qed.

Lemma split_lines_aux_spec (s : str) :
  (exists q, s = fst (split_lines_aux s) ++ q) /\
  (forall l, In l (snd (split_lines_aux s)) -> substring l s).
Proof.
  induction s as [|c s [[q Hq] IH]]; simpl.
  - split; [exists []; reflexivity | intros l []].
  - destruct (split_lines_aux s) as [h t]; simpl in *.
    destruct (Ascii.eqb c LF); simpl.
    + split; [exists (c :: s); reflexivity|].
      intros l [<- | H]; apply substring_cons.
      * exists [], q. exact Hq.
      * apply IH, H.
    + split; [exists q; now rewrite <- Hq|].
      intros l H. apply substring_cons, IH, H.
Qed.

Lemma split_lines_substring (s l : str) :
  In l (split_lines s) -> substring l s.
Proof.
  unfold split_lines. destruct (split_lines_aux_spec s) as [[q Hq] Ht].
  destruct (split_lines_aux s) as [h t]; simpl in *.
  intros [<- | H]; [exists [], q; exact Hq | apply Ht, H].
Qed.

(* ================================================================= *)
(** ** The header split *)

Lemma re_split_aux_cons (bol : bool) (c : ascii) (s : str) :
  re_split_aux bol (c :: s) =
  if match_here bol c s then ([], pieces_of false (tl s))
  else let (p, ps) := re_split_aux (Ascii.eqb c LF) s in (c :: p, ps).
Proof.
  unfold match_here, pieces_of. simpl.
  destruct (bol && Ascii.eqb c HASH); simpl; [|reflexivity].
  destruct s as [|c' s']; [reflexivity|].
  simpl. destruct (Ascii.eqb c' SPACE); [|reflexivity].
  destruct (re_split_aux false s'); reflexivity.
Qed.

Lemma match_here_true (bol : bool) (c : ascii) (s : str) :
  match_here bol c s = true <->
  bol = true /\ c = HASH /\ exists post, s = SPACE :: post.
Proof.
  unfold match_here. rewrite !andb_true_iff, Ascii.eqb_eq.
  destruct s as [|c' s'].
  - split; [intros [_ H]; discriminate | intros (_ & _ & post & H); discriminate].
  - rewrite Ascii.eqb_eq. split.
    + intros [[-> ->] ->]. repeat split. exists s'; reflexivity.
    + intros (-> & -> & post & H). inversion H. auto.
Qed.

Lemma anchored_cons (bol : bool) (c : ascii) (a : str) :
  anchored bol (c :: a) <-> anchored (Ascii.eqb c LF) a.
Proof.
  unfold anchored. split.
  - intros [[H _] | [pre' H]]; [discriminate|].
    destruct pre' as [|x pre']; simpl in H; inversion H; subst.
    + left. split; [reflexivity | apply Ascii.eqb_refl].
    + right. exists pre'. reflexivity.
  - intros [[-> H] | [pre' ->]]; right.
    + apply Ascii.eqb_eq in H; subst c. exists []. reflexivity.
    + exists (c :: pre'). reflexivity.
Qed.

Lemma header_at_nil (bol : bool) : ~ header_at bol [].
Proof. intros (pre & post & H & _). destruct pre; discriminate. Qed.

Lemma header_at_cons (bol : bool) (c : ascii) (s : str) :
  header_at bol (c :: s) <->
  match_here bol c s = true \/ header_at (Ascii.eqb c LF) s.
Proof.
  rewrite match_here_true. split.
  - intros (pre & post & H & Ha). destruct pre as [|x pre]; simpl in H.
    + left. inversion H; subst. destruct Ha as [[_ ->] | [pre' Hp]].
      * repeat split. exists post; reflexivity.
      * destruct pre'; discriminate.
    + right. inversion H; subst. exists pre, post.
      split; [reflexivity | now apply anchored_cons in Ha].
  - intros [(-> & -> & post & ->) | (pre & post & -> & Ha)].
    + exists [], post. split; [reflexivity | left; auto].
    + exists (c :: pre), post. split; [reflexivity | now apply anchored_cons].
Qed.

(** What the scan returns: the whole text when no header is ahead, else
    the text before the first header and the pieces of what follows it. *)
Lemma re_split_aux_cases (s : str) (bol : bool) :
  (re_split_aux bol s = (s, []) /\ ~ header_at bol s) \/
  (exists pre post,
     s = pre ++ "# " ++ post /\ anchored bol pre /\ ~ header_at bol pre /\
     re_split_aux bol s = (pre, pieces_of false post)).
Proof.
  revert bol. induction s as [|c s IH]; intros bol.
  - left. split; [reflexivity | apply header_at_nil].
  - rewrite re_split_aux_cons, header_at_cons.
    destruct (match_here bol c s) eqn:M.
    + right. apply match_here_true in M. destruct M as (-> & -> & post & ->).
      exists [], post. repeat split.
      * left; auto.
      * apply header_at_nil.
    + destruct (IH (Ascii.eqb c LF))
        as [[-> Hn] | (pre & post & -> & Ha & Hn & ->)].
      * left. split; [reflexivity|]. intros [H | H]; [discriminate | tauto].
      * right. exists (c :: pre), post. repeat split.
        -- now apply anchored_cons.
        -- rewrite header_at_cons. intros [H | H]; [|tauto].
           apply match_here_true in H. destruct H as (Hb & Hc & q & Hq).
           assert (match_here bol c (pre ++ "# " ++ post) = true) as M'.
           { apply match_here_true. repeat split; auto.
             subst pre. exists (q ++ "# " ++ post). reflexivity. }
           congruence.
Qed.

Lemma has_header_iff (content : str) :
  has_header content <-> header_at true content.
Proof.
  unfold has_header, header_at, line_start, anchored. split.
  - intros (pre & post & H & [Hp | Hl]); exists pre, post; auto.
  - intros (pre & post & H & [[Hp _] | Hl]); exists pre, post; auto.
Qed.

Lemma line_start_iff (pre : str) : line_start pre <-> anchored true pre.
Proof. unfold line_start, anchored. intuition. Qed.

(** Without a header the split returns the text in one piece. *)
Lemma re_split_no_header (content : str) :
  ~ has_header content -> re_split_headers content = [content].
Proof.
  rewrite has_header_iff. unfold re_split_headers. intros Hn.
  destruct (re_split_aux_cases content true)
    as [[-> _] | (pre & post & -> & Ha & _ & _)]; [reflexivity|].
  exfalso. apply Hn. exists pre, post. auto.
Qed.

(** The first header of a text is at one place only. *)
Lemma first_header_unique (pre : str) :
  forall bol pre' post post',
    pre ++ "# " ++ post = pre' ++ "# " ++ post' ->
    anchored bol pre -> anchored bol pre' ->
    ~ header_at bol pre -> ~ header_at bol pre' ->
    pre = pre'.
Proof.
  induction pre as [|c pre IH]; intros bol pre' post post' E Ha Ha' Hn Hn'.
  - destruct pre' as [|x pre']; [reflexivity|]. exfalso.
    simpl in E. inversion E; subst x.
    destruct Ha as [[_ ->] | [q Hq]]; [|destruct q; discriminate].
    apply Hn'. apply header_at_cons. left. apply match_here_true.
    repeat split. destruct pre' as [|y pre']; simpl in H1.
    + inversion H1.
    + inversion H1; subst. eexists; reflexivity.
  - destruct pre' as [|x pre'].
    + exfalso. simpl in E. inversion E; subst c.
      destruct Ha' as [[_ ->] | [q Hq]]; [|destruct q; discriminate].
      apply Hn. apply header_at_cons. left. apply match_here_true.
      repeat split. destruct pre as [|y pre]; simpl in H1.
      * inversion H1.
      * inversion H1; subst. eexists; reflexivity.
    + simpl in E. inversion E; subst x. f_equal.
      apply (IH (Ascii.eqb c LF) pre' post post'); auto.
      * now apply anchored_cons in Ha.
      * now apply anchored_cons in Ha'.
      * intros H. apply Hn. apply header_at_cons. now right.
      * intros H. apply Hn'. apply header_at_cons. now right.
Qed.

(** With a header the first piece is the text before the first header and
    at least one more piece follows. *)
Lemma re_split_preamble (content pre : str) :
  preamble_of content pre ->
  exists chunk chunks, re_split_headers content = pre :: chunk :: chunks.
Proof.
  intros ([post Hc] & Hl & Hn). unfold re_split_headers.
  apply line_start_iff in Hl. rewrite has_header_iff in Hn.
  destruct (re_split_aux_cases content true)
    as [[_ Hno] | (pre' & post' & Hc' & Ha & Hn' & ->)].
  - exfalso. apply Hno. exists pre, post. auto.
  - assert (pre = pre') as <-.
    { apply (first_header_unique pre true pre' post post'); auto.
      congruence. }
    unfold pieces_of. destruct (re_split_aux false post') as [p ps].
    exists p, ps. reflexivity.
Qed.

(** A text with a header has a text before its first header. *)
Lemma has_header_preamble (content : str) :
  has_header content -> exists pre, preamble_of content pre.
Proof.
  rewrite has_header_iff. intros H.
  destruct (re_split_aux_cases content true)
    as [[_ Hno] | (pre & post & Hc & Ha & Hn & _)]; [tauto|].
  exists pre. repeat split.
  - exists post; exact Hc.
  - now apply line_start_iff.
  - now rewrite has_header_iff.
Qed.

Lemma has_header_pieces (content : str) :
  has_header content <-> 1 < length (re_split_headers content).
Proof.
  split.
  - intros H. destruct (has_header_preamble _ H) as [pre Hp].
    destruct (re_split_preamble _ _ Hp) as (c & cs & ->). simpl; lia.
  - intros H. rewrite has_header_iff.
    unfold re_split_headers in H.
    destruct (re_split_aux_cases content true)
      as [[E _] | (pre & post & -> & Ha & _ & _)].
    + rewrite E in H. simpl in H. lia.
    + exists pre, post. auto.
Qed.

(** Gluing the pieces back with the marker gives the text: the marker is
    in no piece and nothing else is lost. *)
Lemma re_split_aux_join (s : str) (bol : bool) :
  join "# " (pieces_of bol s) = s.
Proof.
  remember (length s) as n eqn:Hn. revert s bol Hn.
  induction n as [n IH] using lt_wf_ind. intros s bol Hn.
  unfold pieces_of.
  destruct (re_split_aux_cases s bol)
    as [[-> _] | (pre & post & -> & _ & _ & ->)]; [reflexivity|].
  specialize (IH (length post)).
  assert (length post < n) as Hlt
    by (subst n; rewrite !length_app; simpl; lia).
  specialize (IH Hlt post false eq_refl).
  unfold pieces_of in *. destruct (re_split_aux false post) as [p ps].
  change (join "# " (pre :: p :: ps)) with (pre ++ "# " ++ join "# " (p :: ps)).
  now rewrite IH.
Qed.

Lemma re_split_join (content : str) :
  join "# " (re_split_headers content) = content.
Proof. apply (re_split_aux_join content true). Qed.

Lemma join_substring (sep : str) (parts : list str) (p : str) :
  In p parts -> substring p (join sep parts).
Proof.
  induction parts as [|x parts IH]; [intros []|].
  intros [<- | H].
  - destruct parts; [apply substring_refl|].
    exists [], (sep ++ join sep (s :: parts)). reflexivity.
  - destruct parts as [|y parts]; [destruct H|].
    change (join sep (x :: y :: parts)) with (x ++ sep ++ join sep (y :: parts)).
    apply substring_app_r, substring_app_r, IH, H.
Qed.

(** Every piece of the split is a run of the text. *)
Lemma re_split_substring (content piece : str) :
  In piece (re_split_headers content) -> substring piece content.
Proof.
  intros H. apply (join_substring "# ") in H.
  now rewrite re_split_join in H.
Qed.

(* ================================================================= *)
(** ** Dictionaries *)

Lemma dict_set_nonempty (d : dict) (k v : str) : dict_set d k v <> [].
Proof. destruct d as [|[k' v'] d]; simpl; [|destruct (str_eqb k' k)]; discriminate. Qed.

Lemma dict_get_set_same (d : dict) (k v : str) :
  dict_get (dict_set d k v) k = Some v.
Proof.
  induction d as [|[k' v'] d IH]; simpl.
  - now rewrite str_eqb_refl.
  - destruct (str_eqb k' k) eqn:E; simpl; rewrite E; auto.
Qed.

Lemma dict_get_set_other (d : dict) (k k' v : str) :
  k <> k' -> dict_get (dict_set d k v) k' = dict_get d k'.
Proof.
  intros Hne. induction d as [|[x y] d IH]; simpl.
  - apply str_eqb_neq in Hne. now rewrite Hne.
  - destruct (str_eqb x k) eqn:E; simpl.
    + apply str_eqb_eq in E; subst x.
      apply str_eqb_neq in Hne. now rewrite Hne.
    + destruct (str_eqb x k'); auto.
Qed.

Lemma dict_get_none (d : dict) (k : str) :
  dict_get d k = None <-> ~ In k (keys d).
Proof.
  induction d as [|[x y] d IH]; simpl; [tauto|].
  destruct (str_eqb x k) eqn:E.
  - apply str_eqb_eq in E. split; [discriminate | tauto].
  - apply str_eqb_neq in E. rewrite IH. tauto.
Qed.


Lemma keys_dict_set_old (d : dict) (k v : str) :
  In k (keys d) -> keys (dict_set d k v) = keys d.
Proof.
  induction d as [|[x y] d IH]; simpl; [tauto|].
  destruct (str_eqb x k) eqn:E; simpl; [reflexivity|].
  apply str_eqb_neq in E. intros [H | H]; [congruence|].
  f_equal. exact (IH H).
Qed.

Lemma dict_set_new (d : dict) (k v : str) :
  ~ In k (keys d) -> dict_set d k v = d ++ [(k, v)].
Proof.
  induction d as [|[x y] d IH]; simpl; [reflexivity|].
  intros H. destruct (str_eqb x k) eqn:E.
  - apply str_eqb_eq in E. tauto.
  - f_equal. apply IH. tauto.
Qed.

Lemma keys_dict_set_in (d : dict) (k v k' : str) :
  In k' (keys (dict_set d k v)) <-> k' = k \/ In k' (keys d).
Proof.
  induction d as [|[x y] d IH]; simpl.
  - intuition.
  - destruct (str_eqb x k) eqn:E; simpl.
    + apply str_eqb_eq in E. subst. intuition.
    + rewrite IH. intuition.
Qed.

(** Assignment keeps the keys of a dictionary distinct. *)
Lemma dict_set_NoDup (d : dict) (k v : str) :
  NoDup (keys d) -> NoDup (keys (dict_set d k v)).
Proof.
  induction d as [|[x y] d IH]; simpl; intros H.
  - constructor; [tauto | constructor].
  - inversion H as [|? ? Hx Hd]; subst.
    destruct (str_eqb x k) eqn:E; simpl.
    + constructor; auto.
    + constructor; [|auto]. rewrite keys_dict_set_in.
      apply str_eqb_neq in E. intros [-> | Hi]; [congruence | tauto].
Qed.

Lemma dict_set_values (P : str -> Prop) (d : dict) (k v : str) :
  Forall (fun e => P (snd e)) d -> P v ->
  Forall (fun e => P (snd e)) (dict_set d k v).
Proof.
  intros Hd Hv. induction d as [|[x y] d IH]; simpl.
  - constructor; auto.
  - inversion Hd; subst. destruct (str_eqb x k); constructor; auto.
Qed.

(** A key that is in a dictionary keeps its offset whatever is assigned. *)
Lemma index_of_dict_set (d : dict) (k k' v : str) (i : nat) :
  index_of k (keys d) = Some i ->
  index_of k (keys (dict_set d k' v)) = Some i.
Proof.
  revert i. induction d as [|[x y] d IH]; simpl; intros i; [discriminate|].
  destruct (str_eqb x k') eqn:E'; simpl; [auto|].
  destruct (str_eqb x k); [auto|].
  destruct (index_of k (keys d)) as [j|]; simpl; [|discriminate].
  intros H. now rewrite (IH j eq_refl).
Qed.

Lemma index_of_dict_set_same (d : dict) (k v : str) :
  exists i, index_of k (keys (dict_set d k v)) = Some i.
Proof.
  induction d as [|[x y] d [i IH]]; simpl.
  - rewrite str_eqb_refl. eauto.
  - destruct (str_eqb x k) eqn:E; simpl; rewrite E; [eauto|].
    rewrite IH. simpl. eauto.
Qed.

Lemma unique_key_filter (d : dict) (k v : str) :
  NoDup (keys d) -> In (k, v) d ->
  filter (fun e => str_eqb (fst e) k) d = [(k, v)].
Proof.
  induction d as [|[x y] d IH]; simpl; [tauto|].
  intros Hnd Hin. inversion Hnd as [|? ? Hx Hd]; subst.
  destruct Hin as [H | H].
  - inversion H; subst. rewrite str_eqb_refl. f_equal.
    clear IH Hnd Hd. induction d as [|[a b] d IHd]; simpl; [reflexivity|].
    simpl in Hx. destruct (str_eqb a k) eqn:E.
    + apply str_eqb_eq in E. tauto.
    + apply IHd. tauto.
  - destruct (str_eqb x k) eqn:E.
    + apply str_eqb_eq in E; subst x. exfalso. apply Hx.
      apply (in_map fst) in H. exact H.
    + now apply IH.
Qed.

(* ================================================================= *)
(** ** Loops that append *)

Lemma fold_left_append {A B : Type} (step : list B -> A -> list B)
      (f : A -> list B) (l : list A) (init : list B) :
  (forall acc x, step acc x = acc ++ f x) ->
  fold_left step l init = init ++ flat_map f l.
Proof.
  intros Hs. revert init. induction l as [|x l IH]; intros init; simpl.
  - now rewrite app_nil_r.
  - now rewrite IH, Hs, <- app_assoc.
Qed.

Lemma flat_map_filter {A B : Type} (p : A -> bool) (g : A -> B) (l : list A) :
  flat_map (fun x => if p x then [g x] else []) l = map g (filter p l).
Proof.
  induction l as [|x l IH]; simpl; [reflexivity|].
  destruct (p x); simpl; now rewrite IH.
Qed.

Lemma filter_map_swap {A B : Type} (q : B -> bool) (g : A -> B) (l : list A) :
  filter q (map g l) = map g (filter (fun x => q (g x)) l).
Proof.
  induction l as [|x l IH]; simpl; [reflexivity|].
  destruct (q (g x)); simpl; now rewrite IH.
Qed.

Lemma filter_filter_comm {A : Type} (p q : A -> bool) (l : list A) :
  filter p (filter q l) = filter q (filter p l).
Proof.
  induction l as [|x l IH]; simpl; [reflexivity|].
  destruct (p x) eqn:Ep, (q x) eqn:Eq; simpl; rewrite ?Ep, ?Eq, IH; reflexivity.
Qed.

Lemma enumerate_nth {A : Type} (d : A) (l : list A) (start : nat) :
  enumerate start l = map (fun i => (start + i, nth i l d)) (seq 0 (length l)).
Proof.
  unfold enumerate. revert start.
  induction l as [|x l IH]; intros start; simpl; [reflexivity|].
  rewrite Nat.add_0_r. f_equal.
  rewrite IH, <- seq_shift, map_map.
  apply map_ext. intros i. now rewrite Nat.add_succ_r.
Qed.

(* ================================================================= *)
(** ** Construction *)

Lemma process_section_eq (d : dict) (section : str) :
  process_section d section =
  dict_set d (chunk_title section) (chunk_body section).
Proof.
  unfold process_section, chunk_title, chunk_body.
  destruct (split_first_line_cases section)
    as [[-> _] | (l & rest & -> & _)]; reflexivity.
Qed.

Lemma chunk_body_substring (section : str) :
  substring (chunk_body section) section.
Proof.
  unfold chunk_body. eapply substring_trans; [apply strip_substring|].
  destruct (split_first_line_cases section)
    as [[-> _] | (l & rest & E & _)]; simpl.
  - apply substring_nil.
  - apply split_first_line_substring. rewrite E. simpl. auto.
Qed.

Lemma chunk_body_trimmed (section : str) : trimmed (chunk_body section).
Proof. apply strip_trimmed. Qed.

Lemma add_introduction_cases (d : dict) (first : str) :
  (strip first = [] /\ add_introduction d first = d) \/
  (strip first <> [] /\
   add_introduction d first = dict_set d "Introduction" (strip first)).
Proof.
  unfold add_introduction. destruct (strip first) eqn:E.
  - left. auto.
  - right. split; [discriminate | reflexivity].
Qed.

(** The section map of a text, from the pieces of its split. *)
Lemma parse_content_pieces (d : dict) (content first : str)
      (chunks : list str) :
  re_split_headers content = first :: chunks -> chunks <> [] ->
  parse_content d content =
  fold_left process_section chunks (add_introduction d first).
Proof.
  unfold parse_content. intros -> H.
  destruct chunks; [congruence | reflexivity].
Qed.

Lemma filter_all {A : Type} (p : A -> bool) (l : list A) :
  (forall x, In x l -> p x = true) -> filter p l = l.
Proof.
  induction l as [|x l IH]; simpl; intros H; [reflexivity|].
  rewrite (H x) by now left. f_equal. apply IH. intros; apply H; now right.
Qed.

Lemma filter_none {A : Type} (p : A -> bool) (l : list A) :
  (forall x, In x l -> p x = false) -> filter p l = [].
Proof.
  induction l as [|x l IH]; simpl; intros H; [reflexivity|].
  rewrite (H x) by now left. apply IH. intros; apply H; now right.
Qed.

Lemma parse_content_no_header (d : dict) (content : str) :
  ~ has_header content ->
  parse_content d content = dict_set d "Documentation" (strip content).
Proof.
  intros H. unfold parse_content. now rewrite (re_split_no_header _ H).
Qed.

Lemma fold_process_nonempty (chunks : list str) (d : dict) :
  d <> [] -> fold_left process_section chunks d <> [].
Proof.
  revert d. induction chunks as [|c chunks IH]; intros d H; simpl; [exact H|].
  apply IH. rewrite process_section_eq. apply dict_set_nonempty.
Qed.

Lemma parse_content_nonempty (content : str) : parse_content [] content <> [].
Proof.
  unfold parse_content.
  destruct (re_split_headers content) as [|first [|chunk chunks]] eqn:E; simpl.
  - discriminate.
  - discriminate.
  - apply fold_process_nonempty.
    rewrite process_section_eq. apply dict_set_nonempty.
Qed.

Lemma fold_process_values (P : str -> Prop) (chunks : list str) (d : dict) :
  (forall c, In c chunks -> P (chunk_body c)) ->
  Forall (fun e => P (snd e)) d ->
  Forall (fun e => P (snd e)) (fold_left process_section chunks d).
Proof.
  revert d. induction chunks as [|c chunks IH]; intros d Hc Hd; simpl; [exact Hd|].
  apply IH; [intros; apply Hc; now right|].
  rewrite process_section_eq. apply dict_set_values; [exact Hd|].
  apply Hc. now left.
Qed.

Lemma fold_process_NoDup (chunks : list str) (d : dict) :
  NoDup (keys d) -> NoDup (keys (fold_left process_section chunks d)).
Proof.
  revert d. induction chunks as [|c chunks IH]; intros d H; simpl; [exact H|].
  apply IH. rewrite process_section_eq. now apply dict_set_NoDup.
Qed.

Lemma add_introduction_NoDup (d : dict) (first : str) :
  NoDup (keys d) -> NoDup (keys (add_introduction d first)).
Proof.
  intros H. destruct (add_introduction_cases d first) as [[_ ->] | [_ ->]];
    [exact H | now apply dict_set_NoDup].
Qed.

Lemma parse_content_NoDup (content : str) :
  NoDup (keys (parse_content [] content)).
Proof.
  unfold parse_content. destruct (1 <? length (re_split_headers content)).
  - apply fold_process_NoDup, add_introduction_NoDup. constructor.
  - apply dict_set_NoDup. constructor.
Qed.

(** Processing chunks none of which has the title [k] leaves [k] alone. *)
Lemma fold_process_get_other (chunks : list str) (d : dict) (k : str) :
  (forall c, In c chunks -> chunk_title c <> k) ->
  dict_get (fold_left process_section chunks d) k = dict_get d k.
Proof.
  revert d. induction chunks as [|c chunks IH]; intros d H; simpl; [reflexivity|].
  rewrite IH by (intros; apply H; now right).
  rewrite process_section_eq. apply dict_get_set_other. apply H. now left.
Qed.

Lemma fold_process_index (chunks : list str) (d : dict) (k : str) (i : nat) :
  index_of k (keys d) = Some i ->
  index_of k (keys (fold_left process_section chunks d)) = Some i.
Proof.
  revert d. induction chunks as [|c chunks IH]; intros d H; simpl; [exact H|].
  apply IH. rewrite process_section_eq. now apply index_of_dict_set.
Qed.

Lemma fold_process_head (chunks : list str) (d : dict) (k v : str) :
  (forall c, In c chunks -> chunk_title c <> k) ->
  hd_error d = Some (k, v) ->
  hd_error (fold_left process_section chunks d) = Some (k, v).
Proof.
  revert d. induction chunks as [|c chunks IH]; intros d Hc Hd; simpl; [exact Hd|].
  apply IH; [intros; apply Hc; now right|].
  rewrite process_section_eq.
  destruct d as [|[x y] d]; simpl in *; [discriminate|].
  inversion Hd; subst.
  assert (str_eqb k (chunk_title c) = false) as ->.
  { apply str_eqb_neq. intros E. apply (Hc c); auto. }
  reflexivity.
Qed.

(** The section map a new object holds, by the outcome of the load. *)
Lemma sections_new (fs : FileSystem) (path : str) :
  sections (fst (new_ContextParser fs path)) =
  match load fs path with
  | NotFound => [("Error", not_found_message)]
  | ReadError e => [("Error", "Failed to load documentation: " ++ e)]
  | Loaded content => parse_content [] content
  end.
Proof.
  unfold new_ContextParser, _load_and_parse, load; simpl.
  destruct (path_exists fs path) as [[|]|e]; try reflexivity.
  destruct (read_text fs path) as [content|e]; reflexivity.
Qed.

Lemma sections_new_nonempty (fs : FileSystem) (path : str) :
  sections (fst (new_ContextParser fs path)) <> [].
Proof.
  rewrite sections_new. destruct (load fs path); try discriminate.
  apply parse_content_nonempty.
Qed.

Lemma sections_new_NoDup (fs : FileSystem) (path : str) :
  NoDup (keys (sections (fst (new_ContextParser fs path)))).
Proof.
  rewrite sections_new. destruct (load fs path).
  - repeat constructor. simpl. tauto.
  - repeat constructor. simpl. tauto.
  - apply parse_content_NoDup.
Qed.

(* ================================================================= *)
(** ** Search *)

Lemma search_titles_eq (query : str) (d : dict) (results : list hit) :
  search_titles (lower query) d results =
  results ++ map title_hit (filter (title_matches query) d).
Proof.
  unfold search_titles. rewrite <- flat_map_filter.
  apply fold_left_append. intros acc [title content].
  unfold title_matches, title_hit; simpl.
  destruct (str_in (lower query) (lower title)); [reflexivity|].
  now rewrite app_nil_r.
Qed.

Lemma matching_lines_of_eq (query : str) (lines : list str) :
  matching_lines_of (lower query) lines =
  map strip (filter (line_matches query) lines).
Proof.
  unfold matching_lines_of. rewrite <- flat_map_filter.
  rewrite (fold_left_append _
             (fun line => if line_matches query line then [strip line] else [])).
  - reflexivity.
  - intros acc line. unfold line_matches.
    destruct (str_in (lower query) (lower line)); [reflexivity|].
    now rewrite app_nil_r.
Qed.

Lemma filter_nil_existsb {A : Type} (p : A -> bool) (l : list A) :
  filter p l = [] <-> existsb p l = false.
Proof.
  induction l as [|x l IH]; simpl; [tauto|].
  destruct (p x); simpl; [split; discriminate | exact IH].
Qed.

(** A line that contains the query sits in a body that contains it. *)
Lemma line_match_in_body (query body : str) :
  existsb (line_matches query) (split_lines body) = true ->
  str_in (lower query) (lower body) = true.
Proof.
  rewrite existsb_exists. intros (line & Hin & Hm).
  unfold line_matches in Hm. apply str_in_spec in Hm. apply str_in_spec.
  eapply substring_trans; [exact Hm|].
  apply substring_lower, split_lines_substring, Hin.
Qed.

Lemma search_bodies_eq (query : str) (d : dict) (results : list hit) :
  search_bodies (lower query) d results =
  results ++ map (body_hit query) (filter (body_matches query) d).
Proof.
  unfold search_bodies. rewrite <- flat_map_filter.
  apply fold_left_append. intros acc [title content].
  unfold body_matches, body_hit; simpl.
  rewrite matching_lines_of_eq.
  destruct (existsb (line_matches query) (split_lines content)) eqn:E.
  - rewrite (line_match_in_body _ _ E).
    destruct (filter (line_matches query) (split_lines content)) eqn:F.
    + apply filter_nil_existsb in F. congruence.
    + reflexivity.
  - apply filter_nil_existsb in E. rewrite E. simpl.
    destruct (str_in (lower query) (lower content)); now rewrite app_nil_r.
Qed.

(** The list of results: the title pass, then the body pass. *)
Lemma search_results_eq (self : ContextParser) (query : str) :
  search_results self query =
  map title_hit (filter (title_matches query) (sections self)) ++
  map (body_hit query) (filter (body_matches query) (sections self)).
Proof.
  unfold search_results. now rewrite search_titles_eq, search_bodies_eq.
Qed.

Lemma numbered_entries_eq (results : list hit) :
  flat_map (fun '(i, (title, context)) =>
              str_of_nat i ++ ". " ++ context ++ "\n\n")
           (enumerate 1 (firstn 5 results))
  = concat (map (numbered_entry results)
                (seq 0 (Nat.min 5 (length results)))).
Proof.
  rewrite (enumerate_nth (([], []) : hit)).
  rewrite length_firstn, flat_map_concat_map, map_map.
  f_equal. apply map_ext_in. intros i Hi. apply in_seq in Hi.
  unfold numbered_entry.
  assert (nth i (firstn 5 results) ([], []) = nth i results ([], [])) as ->.
  { rewrite <- (firstn_skipn 5 results) at 2.
    rewrite app_nth1; [reflexivity|]. rewrite length_firstn. lia. }
  destruct (nth i results ([], [])) as [t c]. simpl.
  now rewrite Nat.add_comm.
Qed.

Lemma format_results_eq (query : str) (results : list hit) :
  format_results query results =
  results_header query ++ results_listing results.
Proof.
  unfold format_results, results_listing, omitted_notice.
  rewrite (fold_left_append _
             (fun '(i, (title, context)) =>
                str_of_nat i ++ ". " ++ context ++ "\n\n")).
  2:{ intros acc [i [title context]]. reflexivity. }
  rewrite numbered_entries_eq. unfold results_header.
  destruct (5 <? length results).
  - now rewrite <- !app_assoc.
  - now rewrite <- !app_assoc, app_nil_r.
Qed.

Lemma search_nonempty_results (self : ContextParser) (query : str) :
  search_results self query <> [] ->
  search self query =
  results_header query ++ results_listing (search_results self query).
Proof.
  intros H. unfold search.
  destruct (sections self) as [|s d] eqn:E.
  - exfalso. apply H. unfold search_results. now rewrite E.
  - destruct (search_results self query) eqn:R; [congruence|].
    apply format_results_eq.
Qed.

Lemma search_no_results (self : ContextParser) (query : str) :
  sections self <> [] -> search_results self query = [] ->
  search self query =
  "No results found for '" ++ query ++ "' in the documentation.".
Proof.
  intros Hs Hr. unfold search.
  destruct (sections self); [congruence|]. now rewrite Hr.
Qed.

Lemma get_overview_eq (self : ContextParser) :
  sections self <> [] ->
  get_overview self =
  "Available documentation sections:\n\n"
    ++ concat (map (overview_entry (keys (sections self)))
                   (seq 0 (length (sections self)))).
Proof.
  intros H. unfold get_overview.
  destruct (sections self) as [|s d] eqn:E; [congruence|].
  rewrite (fold_left_append _
             (fun '(i, title) => str_of_nat i ++ ". " ++ title ++ "\n")).
  2:{ intros acc [i title]. reflexivity. }
  f_equal. rewrite (enumerate_nth ([] : str)), flat_map_concat_map, map_map.
  replace (length (keys (s :: d))) with (length (s :: d))
    by (unfold keys; now rewrite length_map).
  f_equal. apply map_ext. intros i. unfold overview_entry.
  now rewrite Nat.add_comm.
Qed.

Lemma fold_process_keys (chunks : list str) (d : dict) (k : str) :
  In k (keys (fold_left process_section chunks d)) ->
  In k (keys d) \/ exists c, In c chunks /\ chunk_title c = k.
Proof.
  revert d. induction chunks as [|c chunks IH]; intros d H; simpl in *; [auto|].
  apply IH in H. destruct H as [H | (c' & Hc & Ht)].
  - rewrite process_section_eq in H. apply keys_dict_set_in in H.
    destruct H as [-> | H]; [right; exists c; auto | left; exact H].
  - right. exists c'. auto.
Qed.

(* ================================================================= *)
(** ** C1: a location that does not exist *)

(** C1, as stated, fails: for the missing location [/srv/docs/guide.md]
    the map is the single entry titled Error, and its body does not
    mention the path. *)
Lemma C1_body_omits_path :
  path_exists no_files "/srv/docs/guide.md" = Ok false /\
  (forall title body,
     In (title, body)
        (sections (fst (new_ContextParser no_files "/srv/docs/guide.md"))) ->
     title = "Error" /\ ~ substring "/srv/docs/guide.md" body).
Proof.
  split; [reflexivity|].
  intros title body [H | []]. inversion H; subst. split; [reflexivity|].
  rewrite <- str_in_spec. vm_compute. discriminate.
Qed.

(** C1 (amended): for every location that does not exist, construction
    yields a section map with exactly one entry, titled Error, whose body
    is the fixed message asking to create context.md, the same for every
    path; the path itself is written to the warning line of the
    diagnostics; the overview that follows lists exactly one section. *)
Theorem C1_missing_file (fs : FileSystem) (path : str) :
  path_exists fs path = Ok false ->
  sections (fst (new_ContextParser fs path)) =
    [("Error",
      "Documentation file not found. Please create context.md in the project root.")] /\
  snd (new_ContextParser fs path) =
    ["WARNING: Context file not found at " ++ path] /\
  get_overview (fst (new_ContextParser fs path)) =
    "Available documentation sections:\n\n1. Error\n".
Proof.
  intros H. unfold new_ContextParser, _load_and_parse; simpl.
  rewrite H. simpl. repeat split; reflexivity.
Qed.

Lemma C1_missing_file_witness :
  path_exists no_files "/srv/docs/guide.md" = Ok false /\
  sections (fst (new_ContextParser no_files "/srv/docs/guide.md")) =
    [("Error",
      "Documentation file not found. Please create context.md in the project root.")] /\
  snd (new_ContextParser no_files "/srv/docs/guide.md") =
    ["WARNING: Context file not found at /srv/docs/guide.md"] /\
  get_overview (fst (new_ContextParser no_files "/srv/docs/guide.md")) =
    "Available documentation sections:\n\n1. Error\n".
Proof.
  split; [reflexivity|].
  apply (C1_missing_file no_files "/srv/docs/guide.md"). reflexivity.
Defined.

(* ================================================================= *)
(** ** C4: two headers *)

(** C4: the text [# A\nfoo\n# B\nbar] is cut into an empty piece and one
    piece per header, the markers belong to no piece (gluing the pieces
    with the marker gives the text back), and the section map is A with
    body foo, then B with body bar; no title and no body holds a marker. *)
Theorem C4_two_headers (fs : FileSystem) (path : str) :
  load fs path = Loaded "# A\nfoo\n# B\nbar" ->
  re_split_headers "# A\nfoo\n# B\nbar" = [""; "A\nfoo\n"; "B\nbar"] /\
  join "# " [""; "A\nfoo\n"; "B\nbar"] = "# A\nfoo\n# B\nbar" /\
  sections (fst (new_ContextParser fs path)) = [("A", "foo"); ("B", "bar")] /\
  (forall title body,
     In (title, body) (sections (fst (new_ContextParser fs path))) ->
     ~ substring "# " title /\ ~ substring "# " body).
Proof.
  intros H.
  assert (sections (fst (new_ContextParser fs path))
          = [("A", "foo"); ("B", "bar")]) as E
    by (rewrite sections_new, H; reflexivity).
  split; [reflexivity|]. split; [reflexivity|]. split; [exact E|].
  rewrite E. intros title body [Hin | [Hin | []]]; inversion Hin; subst;
    rewrite <- !str_in_spec; split; vm_compute; discriminate.
Qed.

Lemma C4_two_headers_witness :
  load (single_file "context.md" "# A\nfoo\n# B\nbar") "context.md"
    = Loaded "# A\nfoo\n# B\nbar" /\
  sections (document "# A\nfoo\n# B\nbar") = [("A", "foo"); ("B", "bar")].
Proof.
  split; [reflexivity|].
  apply (C4_two_headers (single_file "context.md" "# A\nfoo\n# B\nbar")
           "context.md" eq_refl).
Defined.

(* ================================================================= *)
(** ** C7: the two queries always answer *)

(** C7: on every section map, the empty one included, and for every query
    string, [get_overview] and [search] return a string of one of their
    fixed shapes: the message for an empty map, the message that names a
    query without results, or a first line followed by a listing.  The
    two functions are total and have no failing branch. *)
Theorem C7_queries_total (self : ContextParser) (query : str) :
  ((sections self = [] /\
    get_overview self = "No documentation sections available.") \/
   (sections self <> [] /\
    get_overview self =
      "Available documentation sections:\n\n"
        ++ concat (map (overview_entry (keys (sections self)))
                       (seq 0 (length (sections self)))))) /\
  ((sections self = [] /\
    search self query = "No documentation available to search.") \/
   (sections self <> [] /\ search_results self query = [] /\
    search self query =
      "No results found for '" ++ query ++ "' in the documentation.") \/
   (sections self <> [] /\ search_results self query <> [] /\
    search self query =
      results_header query ++ results_listing (search_results self query))) /\
  get_overview self <> "" /\
  search self query <> "".
Proof.
  assert (Ho : forall l, "Available documentation sections:\n\n" ++ l <> "")
    by (intros l; discriminate).
  assert (Hn : "No results found for '" ++ query
                 ++ "' in the documentation." <> "") by discriminate.
  assert (Hh : forall l, results_header query ++ l <> "")
    by (intros l; discriminate).
  destruct (sections self) as [|s d] eqn:E.
  - unfold get_overview, search. rewrite E.
    split; [left; auto|]. split; [left; auto|]. split; discriminate.
  - assert (sections self <> []) as Hs by (rewrite E; discriminate).
    rewrite <- E. rewrite (get_overview_eq self Hs).
    split; [right; auto|].
    destruct (search_results self query) as [|r rs] eqn:R.
    + rewrite (search_no_results self query Hs R).
      split; [right; left; auto|]. split; [apply Ho | apply Hn].
    + assert (search_results self query <> []) as Hr
        by (rewrite R; discriminate).
      rewrite (search_nonempty_results self query Hr), R.
      split; [|split; [apply Ho | apply Hh]].
      right. right. split; [exact Hs|]. split; [discriminate | reflexivity].
Qed.

(* ================================================================= *)
(** ** C8: what construction leaves in the map *)

(** C8: after construction, if the load failed the map is the single
    entry titled Error whose body tells the failure (the fixed message for
    a missing file, else the text of the exception behind a fixed prefix);
    if the load succeeded every body in the map is trimmed and is a run of
    characters of the text read. *)
Theorem C8_construction_invariant (fs : FileSystem) (path : str) :
  match load fs path with
  | NotFound =>
      sections (fst (new_ContextParser fs path)) =
        [("Error", not_found_message)]
  | ReadError e =>
      sections (fst (new_ContextParser fs path)) =
        [("Error", "Failed to load documentation: " ++ e)]
  | Loaded content =>
      forall title body,
        In (title, body) (sections (fst (new_ContextParser fs path))) ->
        trimmed body /\ substring body content
  end.
Proof.
  rewrite sections_new. destruct (load fs path) as [|e|content]; try reflexivity.
  set (P := fun b => trimmed b /\ substring b content).
  assert (Forall (fun e => P (snd e)) (parse_content [] content)) as HF.
  { unfold parse_content.
    destruct (1 <? length (re_split_headers content)) eqn:L.
    - destruct (re_split_headers content) as [|first chunks] eqn:E;
        [discriminate|]. simpl hd; simpl tl.
      apply fold_process_values.
      + intros c Hc. split; [apply chunk_body_trimmed|].
        eapply substring_trans; [apply chunk_body_substring|].
        apply re_split_substring. rewrite E. now right.
      + destruct (add_introduction_cases [] first) as [[_ ->] | [_ ->]];
          [constructor|].
        apply dict_set_values; [constructor|]. split; [apply strip_trimmed|].
        eapply substring_trans; [apply strip_substring|].
        apply re_split_substring. rewrite E. now left.
    - apply dict_set_values; [constructor|].
      split; [apply strip_trimmed | apply strip_substring]. }
  intros title body Hin. rewrite Forall_forall in HF.
  apply (HF (title, body) Hin).
Qed.

(* ================================================================= *)
(** ** C10: the map of a constructed object is never empty *)

(** C10: whatever the load did (text read, file absent, a call raised),
    the section map of the constructed object has at least one entry, so
    [get_overview] never answers that no sections are available and
    [search] never answers that there is nothing to search. *)
Theorem C10_never_empty (fs : FileSystem) (path : str) (query : str) :
  sections (fst (new_ContextParser fs path)) <> [] /\
  get_overview (fst (new_ContextParser fs path))
    <> "No documentation sections available." /\
  search (fst (new_ContextParser fs path)) query
    <> "No documentation available to search.".
Proof.
  pose proof (sections_new_nonempty fs path) as Hs.
  set (self := fst (new_ContextParser fs path)) in *.
  split; [exact Hs|]. split.
  - rewrite (get_overview_eq self Hs). discriminate.
  - destruct (search_results self query) as [|r rs] eqn:R.
    + rewrite (search_no_results self query Hs R). discriminate.
    + rewrite (search_nonempty_results self query)
        by (rewrite R; discriminate).
      discriminate.
Qed.

(* ================================================================= *)
(** ** C2: case of the query *)

(** C2, as stated, fails: on the document [Foo bar] the two calls return
    different strings, because the first line of a response repeats the
    query as it was typed. *)
Lemma C2_responses_differ :
  search (document "Foo bar") "FOO" =
    "Search results for 'FOO':\n\n1. From 'Documentation' section:\nFoo bar\n\n" /\
  search (document "Foo bar") "foo" =
    "Search results for 'foo':\n\n1. From 'Documentation' section:\nFoo bar\n\n" /\
  search (document "Foo bar") "FOO" <> search (document "Foo bar") "foo".
Proof.
  split; [vm_compute; reflexivity|]. split; [vm_compute; reflexivity|].
  vm_compute. discriminate.
Qed.

(** C2 (amended): two queries that agree after lowercasing, such as FOO
    and foo, produce the same list of results, hence the same listing
    behind a first line that repeats each query as typed; and a result is
    listed exactly when the lowercased query is a run of characters of the
    lowercased title (title pass) or of a lowercased line of the body
    (body pass). *)
Theorem C2_case_insensitive (self : ContextParser) (q1 q2 : str) :
  lower q1 = lower q2 ->
  search_results self q1 = search_results self q2 /\
  (search_results self q1 <> [] ->
   search self q1 =
     results_header q1 ++ results_listing (search_results self q1) /\
   search self q2 =
     results_header q2 ++ results_listing (search_results self q1)) /\
  (forall h,
     In h (search_results self q1) <->
     (exists s, In s (sections self) /\
                substring (lower q1) (lower (fst s)) /\ h = title_hit s) \/
     (exists s, In s (sections self) /\
                (exists line, In line (split_lines (snd s)) /\
                              substring (lower q1) (lower line)) /\
                h = body_hit q1 s)).
Proof.
  intros Hq.
  assert (search_results self q1 = search_results self q2) as E.
  { rewrite !search_results_eq.
    unfold title_matches, body_matches, body_hit, line_matches.
    now rewrite Hq. }
  split; [exact E|]. split.
  - intros Hr. split; [now apply search_nonempty_results|].
    rewrite E in *. now apply search_nonempty_results.
  - intros h. rewrite search_results_eq, in_app_iff, !in_map_iff.
    split.
    + intros [(s & <- & Hs) | (s & <- & Hs)]; apply filter_In in Hs;
        destruct Hs as [Hin Hm]; [left | right]; exists s.
      * unfold title_matches in Hm. apply str_in_spec in Hm. auto.
      * unfold body_matches in Hm. apply existsb_exists in Hm.
        destruct Hm as (line & Hl & Hm). unfold line_matches in Hm.
        apply str_in_spec in Hm. eauto.
    + intros [(s & Hin & Hm & ->) | (s & Hin & (line & Hl & Hm) & ->)];
        [left | right]; exists s; (split; [reflexivity|]);
        apply filter_In; (split; [exact Hin|]).
      * unfold title_matches. now apply str_in_spec.
      * unfold body_matches. apply existsb_exists. exists line.
        split; [exact Hl|]. unfold line_matches. now apply str_in_spec.
Qed.

Lemma C2_case_insensitive_witness :
  lower "FOO" = lower "foo" /\
  search_results (document "Foo bar") "FOO"
    = search_results (document "Foo bar") "foo".
Proof.
  split; [reflexivity|].
  destruct (C2_case_insensitive (document "Foo bar") "FOO" "foo" eq_refl)
    as [H _].
  exact H.
Defined.

(* ================================================================= *)
(** ** C3: the numbered listing *)

(** C3, as stated, fails in its instance: in the document
    [eight_sections] every body contains the query made of the two lines
    a and b and no title does, yet no single line contains it, the body
    pass adds nothing and the response has no numbered entry. *)
Lemma C3_query_across_lines :
  length (sections (document eight_sections)) = 8 /\
  (forall s, In s (sections (document eight_sections)) ->
     str_in (lower "a\nb") (lower (snd s)) = true /\
     str_in (lower "a\nb") (lower (fst s)) = false) /\
  search (document eight_sections) "a\nb"
    = "No results found for 'a\nb' in the documentation.".
Proof.
  split; [vm_compute; reflexivity|]. split.
  - intros s H. vm_compute in H.
    repeat (destruct H as [<- | H]; [split; vm_compute; reflexivity|]).
    destruct H.
  - vm_compute. reflexivity.
Qed.

(** C3 (amended): whenever the list of results is not empty, the response
    is the first line, then one entry per result among the first five,
    numbered from 1, each showing the snippet of the result, then, when
    there are more than five results, a line telling how many were left
    out.  In particular a map of 8 sections, each with a body one line of
    which contains the query, and with no title containing it, gives
    exactly the five entries of its first five sections and the line
    telling that 3 more results were found. *)
Theorem C3_numbered_listing (self : ContextParser) (query : str) :
  (search_results self query <> [] ->
   search self query =
     ("Search results for '" ++ query ++ "':\n\n")
       ++ concat (map (numbered_entry (search_results self query))
                      (seq 0 (Nat.min 5 (length (search_results self query)))))
       ++ (if 5 <? length (search_results self query)
           then "... and "
                  ++ str_of_nat (length (search_results self query) - 5)
                  ++ " more results found.\n"
           else "")) /\
  (length (sections self) = 8 ->
   (forall s, In s (sections self) ->
      body_matches query s = true /\ title_matches query s = false) ->
   search_results self query = map (body_hit query) (sections self) /\
   search self query =
     ("Search results for '" ++ query ++ "':\n\n")
       ++ concat (map (numbered_entry (map (body_hit query) (sections self)))
                      [0; 1; 2; 3; 4])
       ++ "... and 3 more results found.\n").
Proof.
  split.
  - intros H. now rewrite (search_nonempty_results self query H).
  - intros H8 Hm.
    assert (search_results self query = map (body_hit query) (sections self))
      as E.
    { rewrite search_results_eq.
      rewrite (filter_none (title_matches query)) by (intros; now apply Hm).
      rewrite (filter_all (body_matches query)) by (intros; now apply Hm).
      reflexivity. }
    split; [exact E|].
    rewrite search_nonempty_results.
    + rewrite E. unfold results_listing, omitted_notice.
      rewrite length_map, H8. reflexivity.
    + rewrite E. intros N. apply (f_equal (@length _)) in N.
      rewrite length_map, H8 in N. discriminate.
Qed.

Lemma C3_numbered_listing_witness :
  length (sections (document eight_sections)) = 8 /\
  (forall s, In s (sections (document eight_sections)) ->
     body_matches "a" s = true /\ title_matches "a" s = false) /\
  search (document eight_sections) "a" =
    "Search results for 'a':\n\n1. From 'S1' section:\na\n\n2. From 'S2' section:\na\n\n3. From 'S3' section:\na\n\n4. From 'S4' section:\na\n\n5. From 'S5' section:\na\n\n... and 3 more results found.\n".
Proof.
  assert (H8 : length (sections (document eight_sections)) = 8)
    by (vm_compute; reflexivity).
  assert (Hm : forall s, In s (sections (document eight_sections)) ->
                 body_matches "a" s = true /\ title_matches "a" s = false).
  { intros s H. vm_compute in H.
    repeat (destruct H as [<- | H]; [split; vm_compute; reflexivity|]).
    destruct H. }
  split; [exact H8|]. split; [exact Hm|].
  destruct (C3_numbered_listing (document eight_sections) "a") as [_ H].
  destruct (H H8 Hm) as [_ ->]. vm_compute. reflexivity.
Defined.

(* ================================================================= *)
(** ** C5: the text before the first header, and texts without header *)

(** C5, as stated, fails: in [intro\n# Introduction\nother] the text
    before the first header is not empty after trimming, yet the section
    titled Introduction holds the body of the header of that name, not
    that text. *)
Lemma C5_introduction_overwritten :
  preamble_of "intro\n# Introduction\nother" "intro\n" /\
  strip "intro\n" = "intro" /\
  sections (document "intro\n# Introduction\nother")
    = [("Introduction", "other")].
Proof.
  split; [|split; vm_compute; reflexivity].
  split; [exists "Introduction\nother"; reflexivity|]. split.
  - right. exists "intro". reflexivity.
  - rewrite has_header_pieces. vm_compute. lia.
Qed.

(** C5 (amended): a text with a top-level header has a text before its
    first header; when no header of the text is itself titled
    Introduction, the section map has a section titled Introduction
    exactly when that text is not empty after trimming, and then this
    section comes first and its body is that text, trimmed.  A text
    without top-level header gives the single section titled
    Documentation whose body is the whole text, trimmed. *)
Theorem C5_introduction_and_documentation
        (fs : FileSystem) (path content : str) :
  load fs path = Loaded content ->
  (has_header content ->
   exists pre,
     preamble_of content pre /\
     ((forall c, In c (tl (re_split_headers content)) ->
                 chunk_title c <> "Introduction") ->
      (In "Introduction" (keys (sections (fst (new_ContextParser fs path))))
       <-> strip pre <> []) /\
      (strip pre <> [] ->
       hd_error (sections (fst (new_ContextParser fs path)))
         = Some ("Introduction", strip pre)))) /\
  (~ has_header content ->
   sections (fst (new_ContextParser fs path))
     = [("Documentation", strip content)]).
Proof.
  intros Hl. rewrite sections_new, Hl. split.
  - intros Hh. destruct (has_header_preamble content Hh) as [pre Hp].
    exists pre. split; [exact Hp|]. intros Hno.
    destruct (re_split_preamble content pre Hp) as (chunk & chunks & E).
    rewrite E in Hno. simpl tl in Hno.
    rewrite (parse_content_pieces [] content pre (chunk :: chunks) E)
      by discriminate.
    assert (strip pre <> [] ->
            hd_error (fold_left process_section (chunk :: chunks)
                                (add_introduction [] pre))
            = Some ("Introduction", strip pre)) as Hhd.
    { intros Hne. apply fold_process_head; [exact Hno|].
      destruct (add_introduction_cases [] pre) as [[H0 _] | [_ ->]];
        [congruence | reflexivity]. }
    split; [|exact Hhd]. split.
    + intros Hin Hs. apply fold_process_keys in Hin.
      destruct (add_introduction_cases [] pre) as [[_ Ha] | [Hne _]];
        [|congruence].
      rewrite Ha in Hin. destruct Hin as [[] | (c & Hc & Ht)].
      exact (Hno c Hc Ht).
    + intros Hne. specialize (Hhd Hne).
      destruct (fold_left process_section (chunk :: chunks)
                          (add_introduction [] pre)) as [|e d];
        [discriminate|].
      inversion Hhd; subst. left. reflexivity.
  - intros Hn. now rewrite (parse_content_no_header [] content Hn).
Qed.

Lemma C5_introduction_and_documentation_witness :
  (load (single_file "context.md" "  plain notes \n") "context.md"
     = Loaded "  plain notes \n" /\
   ~ has_header "  plain notes \n" /\
   sections (document "  plain notes \n")
     = [("Documentation", strip "  plain notes \n")]) /\
  (load (single_file "context.md" "intro text\n# A\nfoo") "context.md"
     = Loaded "intro text\n# A\nfoo" /\
   has_header "intro text\n# A\nfoo" /\
   hd_error (sections (document "intro text\n# A\nfoo"))
     = Some ("Introduction", strip "intro text\n")).
Proof.
  split.
  - assert (Hn : ~ has_header "  plain notes \n")
      by (rewrite has_header_pieces; vm_compute; lia).
    split; [reflexivity|]. split; [exact Hn|].
    apply (C5_introduction_and_documentation
             (single_file "context.md" "  plain notes \n") "context.md"
             "  plain notes \n" eq_refl).
    exact Hn.
  - assert (Hh : has_header "intro text\n# A\nfoo").
    { exists "intro text\n", "A\nfoo". split; [reflexivity|].
      right. exists "intro text". reflexivity. }
    split; [reflexivity|]. split; [exact Hh|].
    destruct (C5_introduction_and_documentation
                (single_file "context.md" "intro text\n# A\nfoo") "context.md"
                "intro text\n# A\nfoo" eq_refl) as [H _].
    destruct (H Hh) as (pre & Hp & Hrest).
    destruct (re_split_preamble _ _ Hp) as (c & cs & E).
    vm_compute in E. inversion E; subst pre c cs.
    apply Hrest.
    + intros c [<- | []]. vm_compute. discriminate.
    + vm_compute. discriminate.
Defined.

(** The first half of C5 at work on [intro text\n# A\nfoo]. *)
Example introduction_first :
  has_header "intro text\n# A\nfoo" /\
  sections (document "intro text\n# A\nfoo")
    = [("Introduction", "intro text"); ("A", "foo")].
Proof.
  split; [|vm_compute; reflexivity].
  exists "intro text\n", "A\nfoo". split; [reflexivity|].
  right. exists "intro text". reflexivity.
Qed.

(* ================================================================= *)
(** ** C6: the order of the results *)

(** C6: on every non-empty section map and for every query, the list of
    results is the title matches, in the order of the sections, followed
    by the body matches, in the order of the sections; a section that
    matches by its title and by its body has exactly one result in each
    pass, so it is listed twice. *)
Theorem C6_title_pass_then_body_pass (self : ContextParser) (query : str) :
  sections self <> [] ->
  NoDup (keys (sections self)) ->
  search_results self query =
    map title_hit (filter (title_matches query) (sections self)) ++
    map (body_hit query) (filter (body_matches query) (sections self)) /\
  (forall s, In s (sections self) ->
     title_matches query s = true -> body_matches query s = true ->
     filter (fun h => str_eqb (fst h) (fst s))
            (map title_hit (filter (title_matches query) (sections self)))
       = [title_hit s] /\
     filter (fun h => str_eqb (fst h) (fst s))
            (map (body_hit query) (filter (body_matches query) (sections self)))
       = [body_hit query s]).
Proof.
  intros _ Hnd. split; [apply search_results_eq|].
  intros [t b] Hin Ht Hb. simpl fst.
  pose proof (unique_key_filter (sections self) t b Hnd Hin) as Hu.
  split; rewrite filter_map_swap; simpl fst;
    rewrite filter_filter_comm, Hu; simpl.
  - now rewrite Ht.
  - now rewrite Hb.
Qed.

Lemma C6_title_pass_then_body_pass_witness :
  sections (document "# Setup\nsetup the tool\n# Usage\nrun it") <> [] /\
  NoDup (keys (sections (document "# Setup\nsetup the tool\n# Usage\nrun it"))) /\
  search_results (document "# Setup\nsetup the tool\n# Usage\nrun it") "SETUP"
    = [("Setup", "Found in section title: Setup");
       ("Setup", "From 'Setup' section:\nsetup the tool")].
Proof.
  assert (Hs : sections (document "# Setup\nsetup the tool\n# Usage\nrun it")
               <> []) by (vm_compute; discriminate).
  pose proof (sections_new_NoDup
                (single_file "context.md" "# Setup\nsetup the tool\n# Usage\nrun it")
                "context.md") as Hnd.
  split; [exact Hs|]. split; [exact Hnd|].
  destruct (C6_title_pass_then_body_pass
              (document "# Setup\nsetup the tool\n# Usage\nrun it") "SETUP"
              Hs Hnd) as [-> _].
  vm_compute. reflexivity.
Defined.

(* ================================================================= *)
(** ** C9: a title that comes twice *)

(** C9: when two headers of a text have the same title, the body kept for
    that title is the one of the later header (the last with that title),
    the map has one entry for it, and the entry stays at the offset it
    took when the earlier header was processed. *)
Theorem C9_repeated_title
        (fs : FileSystem) (path content pre x y : str) (c1 c2 c3 : list str) :
  load fs path = Loaded content ->
  re_split_headers content = pre :: c1 ++ x :: c2 ++ y :: c3 ->
  chunk_title x = chunk_title y ->
  (forall z, In z c3 -> chunk_title z <> chunk_title y) ->
  dict_get (sections (fst (new_ContextParser fs path))) (chunk_title y)
    = Some (chunk_body y) /\
  NoDup (keys (sections (fst (new_ContextParser fs path)))) /\
  exists i,
    index_of (chunk_title x)
             (keys (fold_left process_section (c1 ++ [x])
                              (add_introduction [] pre))) = Some i /\
    index_of (chunk_title x)
             (keys (sections (fst (new_ContextParser fs path)))) = Some i.
Proof.
  intros Hl E Ht Hlast.
  split; [|split; [apply sections_new_NoDup|]];
    rewrite sections_new, Hl;
    rewrite (parse_content_pieces [] content pre _ E)
      by (destruct c1; discriminate).
  - replace (c1 ++ x :: c2 ++ y :: c3) with ((c1 ++ x :: c2) ++ [y] ++ c3)
      by (now rewrite <- app_assoc).
    rewrite !fold_left_app.
    rewrite (fold_process_get_other c3) by exact Hlast.
    simpl. rewrite process_section_eq. apply dict_get_set_same.
  - replace (c1 ++ x :: c2 ++ y :: c3) with ((c1 ++ [x]) ++ c2 ++ y :: c3)
      by (now rewrite <- app_assoc).
    rewrite (fold_left_app _ (c1 ++ [x])).
    rewrite (fold_left_app _ c1 [x]).
    change (fold_left process_section [x]
              (fold_left process_section c1 (add_introduction [] pre)))
      with (process_section
              (fold_left process_section c1 (add_introduction [] pre)) x).
    rewrite process_section_eq.
    destruct (index_of_dict_set_same
                (fold_left process_section c1 (add_introduction [] pre))
                (chunk_title x) (chunk_body x)) as [i Hi].
    exists i. split; [exact Hi|].
    apply fold_process_index. exact Hi.
Qed.

Lemma C9_repeated_title_witness :
  load (single_file "context.md" "# A\none\n# B\ntwo\n# A\nthree") "context.md"
    = Loaded "# A\none\n# B\ntwo\n# A\nthree" /\
  re_split_headers "# A\none\n# B\ntwo\n# A\nthree"
    = "" :: [] ++ "A\none\n" :: ["B\ntwo\n"] ++ "A\nthree" :: [] /\
  chunk_title "A\none\n" = chunk_title "A\nthree" /\
  dict_get (sections (document "# A\none\n# B\ntwo\n# A\nthree"))
           (chunk_title "A\nthree")
    = Some (chunk_body "A\nthree").
Proof.
  split; [reflexivity|]. split; [vm_compute; reflexivity|].
  split; [vm_compute; reflexivity|].
  apply (C9_repeated_title
           (single_file "context.md" "# A\none\n# B\ntwo\n# A\nthree")
           "context.md" "# A\none\n# B\ntwo\n# A\nthree"
           "" "A\none\n" "A\nthree" [] ["B\ntwo\n"] []).
  - reflexivity.
  - vm_compute. reflexivity.
  - vm_compute. reflexivity.
  - intros z [].
Defined.

(** The run behind C9: the later body, at the earlier place. *)
Example repeated_title_run :
  sections (document "# A\none\n# B\ntwo\n# A\nthree")
    = [("A", "three"); ("B", "two")].
Proof. vm_compute. reflexivity. Qed.

(* ================================================================= *)
(** ** Construction as a run of assignments *)

Lemma fold_process_assign (chunks : list str) (d : dict) :
  fold_left process_section chunks d =
  fold_left assign (map (fun c => (chunk_title c, chunk_body c)) chunks) d.
Proof.
  revert d. induction chunks as [|c chunks IH]; intros d; simpl; [reflexivity|].
  now rewrite IH, process_section_eq.
Qed.

Lemma parse_content_assign (content : str) :
  parse_content [] content = fold_left assign (section_entries content) [].
Proof.
  unfold parse_content, section_entries.
  destruct (1 <? length (re_split_headers content)); [|reflexivity].
  rewrite fold_left_app, fold_process_assign. f_equal.
  unfold add_introduction.
  destruct (strip (hd "" (re_split_headers content))); reflexivity.
Qed.

Lemma existsb_str_eqb (k : str) (l : list str) :
  existsb (str_eqb k) l = true <-> In k l.
Proof.
  rewrite existsb_exists. split.
  - intros (x & Hx & E). apply str_eqb_eq in E. now subst.
  - intros H. exists k. split; [exact H | apply str_eqb_refl].
Qed.

Lemma first_occurrences_ext (ks : list str) :
  forall s1 s2, (forall k, In k s1 <-> In k s2) ->
  first_occurrences s1 ks = first_occurrences s2 ks.
Proof.
  induction ks as [|k ks IH]; intros s1 s2 H; simpl; [reflexivity|].
  assert (existsb (str_eqb k) s1 = existsb (str_eqb k) s2) as ->.
  { destruct (existsb (str_eqb k) s1) eqn:E1, (existsb (str_eqb k) s2) eqn:E2;
      try reflexivity.
    - apply existsb_str_eqb, H, existsb_str_eqb in E1. congruence.
    - apply existsb_str_eqb, H, existsb_str_eqb in E2. congruence. }
  destruct (existsb (str_eqb k) s2); [now apply IH|].
  f_equal. apply IH. intros x. simpl. now rewrite H.
Qed.

Lemma keys_fold_assign (es : list (str * str)) (d : dict) :
  keys (fold_left assign es d) =
  keys d ++ first_occurrences (keys d) (map fst es).
Proof.
  revert d. induction es as [|[k v] es IH]; intros d; simpl.
  - now rewrite app_nil_r.
  - rewrite IH. unfold assign. simpl.
    destruct (existsb (str_eqb k) (keys d)) eqn:E.
    + apply existsb_str_eqb in E.
      now rewrite (keys_dict_set_old d k v E).
    + assert (~ In k (keys d)) as Hn
        by (rewrite <- existsb_str_eqb; congruence).
      rewrite (dict_set_new d k v Hn).
      assert (keys (d ++ [(k, v)]) = keys d ++ [k]) as ->
        by (unfold keys; now rewrite map_app).
      rewrite <- app_assoc. simpl. do 2 f_equal.
      apply first_occurrences_ext. intros x.
      rewrite in_app_iff. simpl. tauto.
Qed.

Lemma dict_get_app_one (l : dict) (e : str * str) (k : str) :
  dict_get (l ++ [e]) k =
  match dict_get l k with
  | Some v => Some v
  | None => if str_eqb (fst e) k then Some (snd e) else None
  end.
Proof.
  induction l as [|[x y] l IH]; simpl.
  - destruct e as [a b]. reflexivity.
  - destruct (str_eqb x k); [reflexivity | exact IH].
Qed.

Lemma dict_get_set (d : dict) (k v k' : str) :
  dict_get (dict_set d k v) k' =
  if str_eqb k k' then Some v else dict_get d k'.
Proof.
  destruct (str_eqb k k') eqn:E.
  - apply str_eqb_eq in E; subst. apply dict_get_set_same.
  - apply str_eqb_neq in E. now apply dict_get_set_other.
Qed.

Lemma get_fold_assign (es : list (str * str)) (d : dict) (k : str) :
  dict_get (fold_left assign es d) k =
  match dict_get (rev es) k with
  | Some v => Some v
  | None => dict_get d k
  end.
Proof.
  revert d. induction es as [|e es IH]; intros d; simpl; [reflexivity|].
  rewrite IH, dict_get_app_one. unfold assign. rewrite dict_get_set.
  destruct (dict_get (rev es) k); [reflexivity|].
  destruct (str_eqb (fst e) k); reflexivity.
Qed.

Lemma keys_dict_set_Forall (P : str -> Prop) (d : dict) (k v : str) :
  Forall P (keys d) -> P k -> Forall P (keys (dict_set d k v)).
Proof.
  intros Hd Hk. apply Forall_forall. intros x Hx.
  apply keys_dict_set_in in Hx. destruct Hx as [-> | Hx]; [exact Hk|].
  rewrite Forall_forall in Hd. now apply Hd.
Qed.

Lemma keys_fold_assign_Forall (P : str -> Prop) (es : list (str * str))
      (d : dict) :
  Forall P (keys d) -> Forall (fun e => P (fst e)) es ->
  Forall P (keys (fold_left assign es d)).
Proof.
  revert d. induction es as [|e es IH]; intros d Hd He; simpl; [exact Hd|].
  inversion He; subst. apply IH; [|assumption].
  now apply keys_dict_set_Forall.
Qed.

Lemma length_dict_set (d : dict) (k v : str) :
  length d <= length (dict_set d k v) <= S (length d).
Proof.
  induction d as [|[x y] d IH]; simpl; [lia|].
  destruct (str_eqb x k); simpl; lia.
Qed.

Lemma length_fold_assign (es : list (str * str)) (d : dict) :
  length d <= length (fold_left assign es d) <= length d + length es.
Proof.
  revert d. induction es as [|e es IH]; intros d; simpl; [lia|].
  specialize (IH (assign d e)).
  pose proof (length_dict_set d (fst e) (snd e)). unfold assign in *. lia.
Qed.

Lemma substring_In (a s : str) (c : ascii) :
  substring a s -> In c a -> In c s.
Proof.
  intros (p & q & ->) H. rewrite !in_app_iff. auto.
Qed.

Lemma chunk_title_single_line (section : str) : ~ In LF (chunk_title section).
Proof.
  unfold chunk_title. intros H.
  apply (substring_In _ _ _ (strip_substring _)) in H.
  destruct (split_first_line_cases section)
    as [[E Hn] | (l & rest & E & _ & Hn)]; rewrite E in H; simpl in H; tauto.
Qed.

Lemma chunk_without_line_feed (section : str) :
  ~ In LF section ->
  chunk_title section = strip section /\ chunk_body section = "".
Proof.
  intros Hn. unfold chunk_title, chunk_body.
  destruct (split_first_line_cases section)
    as [[-> _] | (l & rest & _ & -> & _)].
  - split; reflexivity.
  - exfalso. apply Hn. rewrite in_app_iff. right. now left.
Qed.

Lemma all_space_strip (s : str) :
  Forall (fun c => isspace c = true) s -> strip s = [].
Proof.
  intros H. unfold strip, lstrip.
  assert (dropwhile_space s = []) as ->; [|reflexivity].
  induction H as [|c s Hc _ IH]; simpl; [reflexivity|]. now rewrite Hc.
Qed.

Lemma has_header_hash (content : str) : has_header content -> In HASH content.
Proof.
  intros (pre & post & -> & _). rewrite in_app_iff. right. now left.
Qed.


Lemma sections_loaded (fs : FileSystem) (path content : str) :
  load fs path = Loaded content ->
  sections (fst (new_ContextParser fs path)) =
  fold_left assign (section_entries content) [].
Proof. intros H. now rewrite sections_new, H, parse_content_assign. Qed.

(* ================================================================= *)
(** ** Further properties of construction *)

(** X1: the titles of the section map of a text are the titles the text
    assigns (Introduction for a non-blank text before the first header,
    then the title of every header; Documentation when there is no
    header), each once, in the order of their first appearance. *)
Theorem X1_titles_in_order_of_first_appearance
        (fs : FileSystem) (path content : str) :
  load fs path = Loaded content ->
  keys (sections (fst (new_ContextParser fs path))) =
  first_occurrences [] (map fst (section_entries content)).
Proof.
  intros H. rewrite (sections_loaded fs path content H).
  apply (keys_fold_assign (section_entries content) []).
Qed.

Lemma X1_titles_in_order_of_first_appearance_witness :
  load (single_file "context.md" "# B\n1\n# A\n2\n# B\n3\n# C\n4") "context.md"
    = Loaded "# B\n1\n# A\n2\n# B\n3\n# C\n4" /\
  keys (sections (document "# B\n1\n# A\n2\n# B\n3\n# C\n4")) = ["B"; "A"; "C"].
Proof.
  split; [reflexivity|]. unfold document.
  rewrite (X1_titles_in_order_of_first_appearance
             (single_file "context.md" "# B\n1\n# A\n2\n# B\n3\n# C\n4")
             "context.md" "# B\n1\n# A\n2\n# B\n3\n# C\n4" eq_refl).
  vm_compute. reflexivity.
Defined.

(** X2: looking a title up in the section map of a text gives the body of
    the last assignment the text makes to that title, and nothing for a
    title the text never assigns. *)
Theorem X2_lookup_gives_last_assignment
        (fs : FileSystem) (path content title : str) :
  load fs path = Loaded content ->
  dict_get (sections (fst (new_ContextParser fs path))) title =
  dict_get (rev (section_entries content)) title.
Proof.
  intros H. rewrite (sections_loaded fs path content H), get_fold_assign.
  destruct (dict_get (rev (section_entries content)) title); reflexivity.
Qed.

Lemma X2_lookup_gives_last_assignment_witness :
  load (single_file "context.md" "# B\n1\n# A\n2\n# B\n3\n# C\n4") "context.md"
    = Loaded "# B\n1\n# A\n2\n# B\n3\n# C\n4" /\
  dict_get (sections (document "# B\n1\n# A\n2\n# B\n3\n# C\n4")) "B" = Some "3" /\
  dict_get (sections (document "# B\n1\n# A\n2\n# B\n3\n# C\n4")) "D" = None.
Proof.
  split; [reflexivity|]. split.
  - unfold document.
    rewrite (X2_lookup_gives_last_assignment
               (single_file "context.md" "# B\n1\n# A\n2\n# B\n3\n# C\n4")
               "context.md" "# B\n1\n# A\n2\n# B\n3\n# C\n4" "B" eq_refl).
    vm_compute. reflexivity.
  - vm_compute. reflexivity.
Defined.

Lemma titles_new (fs : FileSystem) (path : str) :
  Forall (fun t => trimmed t /\ ~ In LF t)
         (keys (sections (fst (new_ContextParser fs path)))).
Proof.
  set (P := fun t : str => trimmed t /\ ~ In LF t).
  assert (PE : P "Error")
    by (split; [reflexivity | vm_compute; intuition discriminate]).
  assert (PI : P "Introduction")
    by (split; [reflexivity | vm_compute; intuition discriminate]).
  assert (PD : P "Documentation")
    by (split; [reflexivity | vm_compute; intuition discriminate]).
  rewrite sections_new. destruct (load fs path) as [|e|content].
  - repeat constructor; apply PE.
  - repeat constructor; apply PE.
  - rewrite parse_content_assign.
    apply keys_fold_assign_Forall; [constructor|].
    unfold section_entries.
    destruct (1 <? length (re_split_headers content)).
    + apply Forall_app. split.
      * destruct (strip (hd "" (re_split_headers content)));
          repeat constructor; apply PI.
      * apply Forall_map, Forall_forall. intros c _. simpl.
        split; [apply strip_trimmed | apply chunk_title_single_line].
    + repeat constructor; apply PD.
Qed.

(** X3: whatever the load did, every title of the section map is trimmed
    and holds no line feed. *)
Theorem X3_titles_trimmed_single_line (fs : FileSystem) (path : str) :
  forall title,
    In title (keys (sections (fst (new_ContextParser fs path)))) ->
    trimmed title /\ ~ In LF title.
Proof.
  intros title Hin. pose proof (titles_new fs path) as HF.
  rewrite Forall_forall in HF. now apply HF.
Qed.

Lemma X3_titles_trimmed_single_line_witness :
  In "Last one"
     (keys (sections (document "# A\nfoo\n#  Last one \nbar"))) /\
  trimmed "Last one" /\ ~ In LF "Last one".
Proof.
  assert (H : In "Last one"
                 (keys (sections (document "# A\nfoo\n#  Last one \nbar"))))
    by (vm_compute; auto).
  split; [exact H|].
  apply (X3_titles_trimmed_single_line
           (single_file "context.md" "# A\nfoo\n#  Last one \nbar")
           "context.md" "Last one" H).
Defined.

(** X4: a text made of white space only, the empty text included, is not
    an error: it gives the single section Documentation with an empty
    body. *)
Theorem X4_blank_text (fs : FileSystem) (path content : str) :
  load fs path = Loaded content ->
  Forall (fun c => isspace c = true) content ->
  sections (fst (new_ContextParser fs path)) = [("Documentation", "")].
Proof.
  intros Hl Hs. rewrite sections_new, Hl.
  rewrite parse_content_no_header.
  - now rewrite (all_space_strip content Hs).
  - intros Hh. apply has_header_hash in Hh.
    rewrite Forall_forall in Hs. specialize (Hs HASH Hh). discriminate.
Qed.

Lemma X4_blank_text_witness :
  load (single_file "context.md" " \n\n  ") "context.md" = Loaded " \n\n  " /\
  Forall (fun c => isspace c = true) " \n\n  " /\
  sections (document " \n\n  ") = [("Documentation", "")].
Proof.
  assert (Hs : Forall (fun c => isspace c = true) " \n\n  ")
    by (repeat constructor).
  split; [reflexivity|]. split; [exact Hs|].
  apply (X4_blank_text (single_file "context.md" " \n\n  ") "context.md"
           " \n\n  " eq_refl Hs).
Defined.

(** X5: a header that ends the text without a line feed gives a section
    whose title is the rest of that line, trimmed, and whose body is
    empty. *)
Theorem X5_last_header_without_body
        (fs : FileSystem) (path content first last : str) (chunks : list str) :
  load fs path = Loaded content ->
  re_split_headers content = first :: chunks ++ [last] ->
  ~ In LF last ->
  dict_get (sections (fst (new_ContextParser fs path))) (strip last) = Some "".
Proof.
  intros Hl E Hn. rewrite sections_new, Hl.
  rewrite (parse_content_pieces [] content first _ E)
    by (destruct chunks; discriminate).
  rewrite fold_left_app. simpl. rewrite process_section_eq.
  destruct (chunk_without_line_feed last Hn) as [-> ->].
  apply dict_get_set_same.
Qed.

Lemma X5_last_header_without_body_witness :
  load (single_file "context.md" "# A\nfoo\n# Last one ") "context.md"
    = Loaded "# A\nfoo\n# Last one " /\
  re_split_headers "# A\nfoo\n# Last one " = "" :: ["A\nfoo\n"] ++ ["Last one "] /\
  ~ In LF "Last one " /\
  dict_get (sections (document "# A\nfoo\n# Last one ")) (strip "Last one ")
    = Some "".
Proof.
  assert (Hn : ~ In LF "Last one ")
    by (vm_compute; intuition discriminate).
  split; [reflexivity|]. split; [vm_compute; reflexivity|].
  split; [exact Hn|].
  apply (X5_last_header_without_body
           (single_file "context.md" "# A\nfoo\n# Last one ") "context.md"
           "# A\nfoo\n# Last one " "" "Last one " ["A\nfoo\n"] eq_refl);
    [vm_compute; reflexivity | exact Hn].
Defined.

(** X6: the section map of a text has at least one section and at most one
    per piece of the split, that is one per header and one more; the last
    diagnostic line of the load reports that number. *)
Theorem X6_section_count (fs : FileSystem) (path content : str) :
  load fs path = Loaded content ->
  1 <= length (sections (fst (new_ContextParser fs path)))
    <= length (re_split_headers content) /\
  snd (new_ContextParser fs path) =
    ["Loaded context file: " ++ path ++ " ("
       ++ str_of_nat (length content) ++ " chars)";
     "Parsed "
       ++ str_of_nat (length (sections (fst (new_ContextParser fs path))))
       ++ " sections"].
Proof.
  intros Hl. split.
  - pose proof (sections_new_nonempty fs path) as Hne.
    rewrite (sections_loaded fs path content Hl) in *.
    pose proof (length_fold_assign (section_entries content) []) as Hb.
    simpl in Hb. split.
    + destruct (fold_left assign (section_entries content) []);
        [congruence | simpl; lia].
    + eapply Nat.le_trans; [apply Hb|].
      unfold section_entries, re_split_headers.
      destruct (re_split_aux true content) as [first [|c chunks]];
        simpl; [lia|].
      destruct (strip first); simpl; rewrite length_map; lia.
  - unfold load in Hl. unfold new_ContextParser, _load_and_parse. simpl.
    destruct (path_exists fs path) as [[|]|e]; try discriminate.
    destruct (read_text fs path) as [c|e]; [|discriminate].
    inversion Hl; subst. reflexivity.
Qed.

Lemma X6_section_count_witness :
  load (single_file "context.md" "# A\none\n# B\ntwo\n# A\nthree") "context.md"
    = Loaded "# A\none\n# B\ntwo\n# A\nthree" /\
  snd (new_ContextParser
         (single_file "context.md" "# A\none\n# B\ntwo\n# A\nthree") "context.md")
    = ["Loaded context file: context.md (25 chars)"; "Parsed 2 sections"].
Proof.
  split; [reflexivity|].
  destruct (X6_section_count
              (single_file "context.md" "# A\none\n# B\ntwo\n# A\nthree")
              "context.md" "# A\none\n# B\ntwo\n# A\nthree" eq_refl) as [_ ->].
  vm_compute. reflexivity.
Defined.



(* ================================================================= *)
(** ** Line feeds *)

Lemma split_lines_single_line (s l : str) : In l (split_lines s) -> ~ In LF l.
Proof.
  unfold split_lines. revert l.
  induction s as [|c s IH]; simpl; intros l.
  - intros [<- | []]. tauto.
  - destruct (split_lines_aux s) as [h t].
    destruct (Ascii.eqb c LF) eqn:E.
    + intros [<- | H]; [tauto | apply IH, H].
    + apply Ascii.eqb_neq in E. intros [<- | H].
      * intros [Hc | Hc]; [congruence|].
        exact (IH h (or_introl eq_refl) Hc).
      * apply IH. right; exact H.
Qed.

Lemma split_lines_nonempty (s : str) : split_lines s <> [].
Proof. unfold split_lines. destruct (split_lines_aux s). discriminate. Qed.

Lemma lower_char_LF (c : ascii) : lower_char c = LF <-> c = LF.
Proof.
  split; [|intros ->; reflexivity].
  destruct c as [[] [] [] [] [] [] [] []]; vm_compute; intros H;
    first [reflexivity | discriminate H].
Qed.

Lemma lower_LF (s : str) : In LF (lower s) <-> In LF s.
Proof.
  unfold lower. rewrite in_map_iff. split.
  - intros (c & Hc & Hin). apply (proj1 (lower_char_LF c)) in Hc.
    rewrite <- Hc. exact Hin.
  - intros H. exists LF. split; [reflexivity | exact H].
Qed.

(** A query that holds a line feed is in no line. *)
Lemma line_matches_LF (query line : str) :
  In LF query -> ~ In LF line -> line_matches query line = false.
Proof.
  intros Hq Hl. unfold line_matches.
  destruct (str_in (lower query) (lower line)) eqn:E; [|reflexivity].
  exfalso. apply str_in_spec in E. apply Hl. apply lower_LF.
  apply (substring_In _ _ _ E). now apply lower_LF.
Qed.

Lemma count_LF_app (a b : str) : count_LF (a ++ b) = count_LF a + count_LF b.
Proof. apply count_occ_app. Qed.

Lemma count_LF_none (s : str) : ~ In LF s -> count_LF s = 0.
Proof. intros H. now apply count_occ_not_In. Qed.

Lemma str_of_nat_digits (n : nat) : ~ In LF (str_of_nat n).
Proof.
  unfold str_of_nat. generalize (Nat.to_uint n). intros u.
  induction u; simpl; try tauto;
    intros [H | H]; try (vm_compute in H; discriminate H); tauto.
Qed.

Lemma count_LF_overview_entries (titles : list str) (n : nat) :
  n <= length titles -> Forall (fun t => ~ In LF t) titles ->
  count_LF (concat (map (overview_entry titles) (seq 0 n))) = n.
Proof.
  intros Hn Ht. induction n as [|n IH]; [reflexivity|].
  rewrite seq_S, map_app, concat_app, count_LF_app, IH by lia.
  simpl. rewrite app_nil_r. unfold overview_entry.
  rewrite !count_LF_app.
  rewrite (count_LF_none (str_of_nat (n + 1))) by apply str_of_nat_digits.
  rewrite (count_LF_none (nth n titles "")).
  - assert (count_LF ". " = 0) as -> by (vm_compute; reflexivity).
    assert (count_LF "\n" = 1) as -> by (vm_compute; reflexivity).
    simpl. lia.
  - rewrite Forall_forall in Ht. apply Ht. apply nth_In. lia.
Qed.

(* ================================================================= *)
(** ** Further properties of the overview *)

(** X8: however the load fails (file absent, or a call raised), exactly
    one diagnostic line is written, the map has the single title Error and
    the overview is the fixed first line followed by the entry numbered 1
    for Error. *)
Theorem X8_failed_load_overview (fs : FileSystem) (path : str) :
  (forall content, load fs path <> Loaded content) ->
  keys (sections (fst (new_ContextParser fs path))) = ["Error"] /\
  length (snd (new_ContextParser fs path)) = 1 /\
  get_overview (fst (new_ContextParser fs path)) =
    "Available documentation sections:\n\n1. Error\n".
Proof.
  intros H. unfold load in H.
  unfold new_ContextParser, _load_and_parse, load_failed; simpl.
  destruct (path_exists fs path) as [[|]|e]; try (repeat split; reflexivity).
  destruct (read_text fs path) as [c|e]; [|repeat split; reflexivity].
  exfalso. now apply (H c).
Qed.

Lemma X8_failed_load_overview_witness :
  (forall content,
     load {| path_exists := fun _ => Ok true;
             read_text := fun _ => Raise "[Errno 13] Permission denied" |}
          "context.md" <> Loaded content) /\
  get_overview
    (fst (new_ContextParser
            {| path_exists := fun _ => Ok true;
               read_text := fun _ => Raise "[Errno 13] Permission denied" |}
            "context.md"))
    = "Available documentation sections:\n\n1. Error\n".
Proof.
  assert (H : forall content,
             load {| path_exists := fun _ => Ok true;
                     read_text := fun _ => Raise "[Errno 13] Permission denied" |}
                  "context.md" <> Loaded content)
    by (intros content; discriminate).
  split; [exact H|].
  destruct (X8_failed_load_overview
              {| path_exists := fun _ => Ok true;
                 read_text := fun _ => Raise "[Errno 13] Permission denied" |}
              "context.md" H) as (_ & _ & E).
  exact E.
Defined.

(** X9: the overview of a constructed object has one line per section
    behind its two-line head: it holds as many line feeds as the map has
    sections, and two more. *)
Theorem X9_overview_one_line_per_section (fs : FileSystem) (path : str) :
  count_LF (get_overview (fst (new_ContextParser fs path))) =
  2 + length (sections (fst (new_ContextParser fs path))).
Proof.
  rewrite (get_overview_eq _ (sections_new_nonempty fs path)).
  rewrite count_LF_app. f_equal.
  apply count_LF_overview_entries.
  - unfold keys. rewrite length_map. lia.
  - eapply Forall_impl; [|apply (titles_new fs path)].
    intros t [_ H]. exact H.
Qed.

(* ================================================================= *)
(** ** Further properties of search *)

Lemma filter_nil_forall {A : Type} (p : A -> bool) (l : list A) :
  filter p l = [] -> forall x, In x l -> p x = false.
Proof.
  intros H x Hin. destruct (p x) eqn:E; [|reflexivity].
  assert (In x (filter p l)) as Hf by (apply filter_In; auto).
  rewrite H in Hf. destruct Hf.
Qed.

Lemma existsb_false_forall {A : Type} (p : A -> bool) (l : list A) :
  existsb p l = false <-> forall x, In x l -> p x = false.
Proof.
  rewrite <- filter_nil_existsb. split.
  - apply filter_nil_forall.
  - apply filter_none.
Qed.

Lemma title_matches_spec (query : str) (s : str * str) :
  title_matches query s = true <-> substring (lower query) (lower (fst s)).
Proof. apply str_in_spec. Qed.

Lemma line_matches_spec (query line : str) :
  line_matches query line = true <-> substring (lower query) (lower line).
Proof. apply str_in_spec. Qed.

Lemma not_true_false (b : bool) (P : Prop) :
  (b = true <-> P) -> (b = false <-> ~ P).
Proof. destruct b; intuition congruence. Qed.

Lemma In_firstn {A : Type} (n : nat) (l : list A) (x : A) :
  In x (firstn n l) -> In x l.
Proof.
  revert l. induction n as [|n IH]; intros [|y l]; simpl; try tauto.
  intros [H | H]; [now left | right; now apply IH].
Qed.

Lemma body_results_eq (self : ContextParser) (query : str) :
  body_results self query =
  map (body_hit query) (filter (body_matches query) (sections self)).
Proof. unfold body_results. now rewrite search_bodies_eq. Qed.

(** X10: the empty query matches every title and every body: each section
    gives one title result and one body result, so the list of results is
    twice as long as the map. *)
Theorem X10_empty_query_matches_everything (self : ContextParser) :
  search_results self "" =
    map title_hit (sections self) ++ map (body_hit "") (sections self) /\
  length (search_results self "") = 2 * length (sections self).
Proof.
  assert (search_results self "" =
          map title_hit (sections self) ++ map (body_hit "") (sections self))
    as E.
  { rewrite search_results_eq.
    rewrite (filter_all (title_matches "")), (filter_all (body_matches ""));
      [reflexivity | |].
    - intros s _. unfold body_matches.
      pose proof (split_lines_nonempty (snd s)) as Hn.
      destruct (split_lines (snd s)) as [|l ls]; [congruence|].
      simpl. unfold line_matches. simpl lower at 1.
      now rewrite str_in_nil.
    - intros s _. unfold title_matches. apply str_in_nil. }
  split; [exact E|].
  rewrite E, length_app, !length_map. lia.
Qed.

(** X11: [search] answers that nothing was found for the query exactly
    when the map is not empty and the lowercased query is neither in a
    lowercased title nor in a lowercased line of a body. *)
Theorem X11_no_results_exactly_when_nothing_matches
        (self : ContextParser) (query : str) :
  search self query
    = "No results found for '" ++ query ++ "' in the documentation." <->
  sections self <> [] /\
  (forall s, In s (sections self) ->
     ~ substring (lower query) (lower (fst s)) /\
     (forall line, In line (split_lines (snd s)) ->
        ~ substring (lower query) (lower line))).
Proof.
  split.
  - intros H. destruct (sections self) as [|s0 d] eqn:E.
    + unfold search in H. rewrite E in H. discriminate H.
    + rewrite <- E in *.
      assert (sections self <> []) as Hs by (rewrite E; discriminate).
      destruct (search_results self query) as [|r rs] eqn:R.
      * split; [exact Hs|]. rewrite search_results_eq in R.
        apply app_eq_nil in R. destruct R as [R1 R2].
        apply map_eq_nil in R1. apply map_eq_nil in R2.
        intros s Hin. split.
        -- apply (not_true_false _ _ (title_matches_spec query s)).
           now apply (filter_nil_forall _ _ R1).
        -- intros line Hl.
           apply (not_true_false _ _ (line_matches_spec query line)).
           pose proof (filter_nil_forall _ _ R2 s Hin) as Hb.
           unfold body_matches in Hb.
           now apply (proj1 (existsb_false_forall _ _) Hb).
      * rewrite search_nonempty_results in H by (rewrite R; discriminate).
        discriminate H.
  - intros [Hs Hno]. apply search_no_results; [exact Hs|].
    rewrite search_results_eq.
    rewrite (filter_none (title_matches query)),
            (filter_none (body_matches query)); [reflexivity | |].
    + intros s Hin. unfold body_matches. apply existsb_false_forall.
      intros line Hl. destruct (Hno s Hin) as [_ H2].
      apply (not_true_false _ _ (line_matches_spec query line)).
      exact (H2 line Hl).
    + intros s Hin. destruct (Hno s Hin) as [H1 _].
      apply (not_true_false _ _ (title_matches_spec query s)).
      exact H1.
Qed.

(** X12: a query that holds a line feed is in no line of any body, so the
    body pass adds nothing; on a constructed object, whose titles hold no
    line feed either, [search] answers that nothing was found. *)
Theorem X12_query_with_line_feed
        (self : ContextParser) (fs : FileSystem) (path query : str) :
  In LF query ->
  body_results self query = [] /\
  search (fst (new_ContextParser fs path)) query
    = "No results found for '" ++ query ++ "' in the documentation.".
Proof.
  intros Hq.
  assert (Hb : forall s : str * str, body_matches query s = false).
  { intros s. unfold body_matches. apply existsb_false_forall.
    intros line Hl. apply line_matches_LF; [exact Hq|].
    now apply (split_lines_single_line (snd s)). }
  split.
  - rewrite body_results_eq.
    rewrite (filter_none (body_matches query)) by (intros; apply Hb).
    reflexivity.
  - apply search_no_results; [apply sections_new_nonempty|].
    rewrite search_results_eq.
    rewrite (filter_none (body_matches query)) by (intros; apply Hb).
    rewrite (filter_none (title_matches query)); [reflexivity|].
    intros s Hin. apply (line_matches_LF query (fst s) Hq).
    pose proof (titles_new fs path) as HF. rewrite Forall_forall in HF.
    apply (HF (fst s)). unfold keys. now apply in_map.
Qed.

Lemma X12_query_with_line_feed_witness :
  In LF "Setup\nRun" /\
  search (document "# Setup\nRun install.\n# Usage\nRun build then run test.")
         "Setup\nRun"
    = "No results found for '" ++ "Setup\nRun" ++ "' in the documentation.".
Proof.
  assert (H : In LF "Setup\nRun") by (vm_compute; tauto).
  split; [exact H|].
  destruct (X12_query_with_line_feed
              (document "# Setup\nRun install.\n# Usage\nRun build then run test.")
              (single_file "context.md"
                 "# Setup\nRun install.\n# Usage\nRun build then run test.")
              "context.md" "Setup\nRun" H) as [_ E].
  exact E.
Defined.

(** X13: every result of the body pass belongs to a section of the map
    and shows, behind the line that names the section, between one and
    three lines, each of them a line of that body, trimmed, that contains
    the query once both are lowercased. *)
Theorem X13_body_snippet (self : ContextParser) (query : str) (h : hit) :
  In h (body_results self query) ->
  exists s shown,
    In s (sections self) /\
    h = (fst s, "From '" ++ fst s ++ "' section:\n" ++ join "\n" shown) /\
    1 <= length shown <= 3 /\
    (forall l, In l shown ->
       exists line, In line (split_lines (snd s)) /\ l = strip line /\
                    substring (lower query) (lower line)).
Proof.
  rewrite body_results_eq, in_map_iff.
  intros (s & <- & Hs). apply filter_In in Hs. destruct Hs as [Hin Hm].
  exists s,
    (firstn 3 (map strip (filter (line_matches query) (split_lines (snd s))))).
  split; [exact Hin|]. split; [reflexivity|]. split.
  - rewrite length_firstn, length_map. split; [|lia].
    unfold body_matches in Hm.
    destruct (filter (line_matches query) (split_lines (snd s))) eqn:F.
    + apply filter_nil_existsb in F. congruence.
    + simpl. lia.
  - intros l Hl. apply In_firstn in Hl. apply in_map_iff in Hl.
    destruct Hl as (line & <- & Hline). apply filter_In in Hline.
    destruct Hline as [Hline Hmatch].
    exists line. split; [exact Hline|]. split; [reflexivity|].
    now apply line_matches_spec.
Qed.

Lemma X13_body_snippet_witness :
  In ("Usage", "From 'Usage' section:\nrun a\nRUN b\nrun c")
     (body_results (document "# Usage\n  run a\nskip\nRUN b \nrun c\nrun d")
                   "Run") /\
  exists s shown,
    In s (sections (document "# Usage\n  run a\nskip\nRUN b \nrun c\nrun d")) /\
    ("Usage", "From 'Usage' section:\nrun a\nRUN b\nrun c")
      = (fst s, "From '" ++ fst s ++ "' section:\n" ++ join "\n" shown) /\
    1 <= length shown <= 3 /\
    (forall l, In l shown ->
       exists line, In line (split_lines (snd s)) /\ l = strip line /\
                    substring (lower "Run") (lower line)).
Proof.
  assert (H : In ("Usage", "From 'Usage' section:\nrun a\nRUN b\nrun c")
                 (body_results
                    (document "# Usage\n  run a\nskip\nRUN b \nrun c\nrun d")
                    "Run"))
    by (vm_compute; auto).
  split; [exact H|].
  exact (X13_body_snippet
           (document "# Usage\n  run a\nskip\nRUN b \nrun c\nrun d")
           "Run" _ H).
Defined.

(** X14: a search gives at most two results per section, and every result
    carries the title of a section of the map. *)
Theorem X14_results_bounded (self : ContextParser) (query : str) :
  length (search_results self query) <= 2 * length (sections self) /\
  (forall h, In h (search_results self query) ->
     In (fst h) (keys (sections self))).
Proof.
  rewrite search_results_eq. split.
  - rewrite length_app, !length_map.
    pose proof (filter_length_le (title_matches query) (sections self)).
    pose proof (filter_length_le (body_matches query) (sections self)).
    lia.
  - intros h Hin. apply in_app_iff in Hin.
    destruct Hin as [Hin | Hin]; apply in_map_iff in Hin;
      destruct Hin as (s & <- & Hs); apply filter_In in Hs;
      destruct Hs as [Hs _]; unfold keys; simpl; now apply in_map.
Qed.

(** X15: searching for the title of a section finds that section in the
    title pass, and searching for a line of its body finds it in the body
    pass. *)
Theorem X15_search_finds_what_is_there
        (self : ContextParser) (s : str * str) :
  In s (sections self) ->
  In (title_hit s) (search_results self (fst s)) /\
  (forall line, In line (split_lines (snd s)) ->
     In (body_hit line s) (search_results self line)).
Proof.
  intros Hin. split.
  - rewrite search_results_eq, in_app_iff. left.
    apply in_map, filter_In. split; [exact Hin|].
    apply title_matches_spec, substring_refl.
  - intros line Hl. rewrite search_results_eq, in_app_iff. right.
    apply in_map, filter_In. split; [exact Hin|].
    unfold body_matches. apply existsb_exists. exists line.
    split; [exact Hl|]. apply line_matches_spec, substring_refl.
Qed.

Lemma X15_search_finds_what_is_there_witness :
  In ("Usage", "Run build then run test.")
     (sections (document
        "# Setup\nRun install.\n# Usage\nRun build then run test.")) /\
  In (title_hit ("Usage", "Run build then run test."))
     (search_results
        (document "# Setup\nRun install.\n# Usage\nRun build then run test.")
        "Usage").
Proof.
  assert (H : In ("Usage", "Run build then run test.")
                 (sections (document
                    "# Setup\nRun install.\n# Usage\nRun build then run test.")))
    by (vm_compute; auto).
  split; [exact H|].
  destruct (X15_search_finds_what_is_there
              (document "# Setup\nRun install.\n# Usage\nRun build then run test.")
              ("Usage", "Run build then run test.") H) as [E _].
  exact E.
Defined.

(* ================================================================= *)
(** ** Further properties of the header split and of the tools *)





(** X17: the two tools answer from the parser the module built when it was
    imported.  Its construction is announced first in the diagnostics;
    the overview tool always lists a section numbered 1, the first title
    of the map; the search tool never answers that there is nothing to
    search, and each call writes its one diagnostic line. *)
Theorem X17_tools_answer_from_built_parser
        (fs : FileSystem) (CONTEXT_FILE query : str) :
  hd_error (snd (init_context_parser fs CONTEXT_FILE))
    = Some "Initializing context parser..." /\
  (exists title rest,
     hd_error (keys (sections (fst (init_context_parser fs CONTEXT_FILE))))
       = Some title /\
     fst (get_context_overview (fst (init_context_parser fs CONTEXT_FILE)))
       = "Available documentation sections:\n\n1. " ++ title ++ "\n" ++ rest) /\
  fst (search_context (fst (init_context_parser fs CONTEXT_FILE)) query)
    <> "No documentation available to search." /\
  snd (search_context (fst (init_context_parser fs CONTEXT_FILE)) query)
    = ["Searching for: " ++ query] /\
  snd (get_context_overview (fst (init_context_parser fs CONTEXT_FILE)))
    = ["Getting context overview"].
Proof.
  assert (fst (init_context_parser fs CONTEXT_FILE)
          = fst (new_ContextParser fs CONTEXT_FILE)) as ->
    by (unfold init_context_parser;
        destruct (new_ContextParser fs CONTEXT_FILE); reflexivity).
  pose proof (sections_new_nonempty fs CONTEXT_FILE) as Hs.
  set (self := fst (new_ContextParser fs CONTEXT_FILE)) in *.
  split.
  { unfold init_context_parser.
    destruct (new_ContextParser fs CONTEXT_FILE); reflexivity. }
  split; [|split; [|split; reflexivity]].
  - unfold get_context_overview. simpl fst.
    rewrite (get_overview_eq self Hs).
    destruct (sections self) as [|[t b] d]; [congruence|].
    exists t,
      (concat (map (overview_entry (keys ((t, b) :: d)))
                   (seq 1 (length d)))).
    split; [reflexivity|].
    change (seq 0 (length ((t, b) :: d))) with (0 :: seq 1 (length d)).
    rewrite map_cons, concat_cons. unfold overview_entry at 1.
    change (str_of_nat (0 + 1)) with "1".
    change (nth 0 (keys ((t, b) :: d)) "") with t.
    now rewrite <- !app_assoc.
  - unfold search_context. simpl fst.
    destruct (search_results self query) as [|r rs] eqn:R.
    + rewrite (search_no_results self query Hs R). discriminate.
    + rewrite (search_nonempty_results self query)
        by (rewrite R; discriminate).
      discriminate.
Qed.
